(** * remove_blog.py: a shallow embedding and its properties

    The script reads every [*.html] file of its directory, applies four
    regular-expression substitutions and a blank-line collapse, writes the
    file back when the text changed, deletes [blog.html] and [blogs.html]
    and prints a report.

    Text is a list of Unicode code points (a Python [str] after
    [read_text(encoding='utf-8')]).  The five patterns of the script are
    terms of a small regex syntax; [re.sub] is a backtracking matcher with
    Python's priorities (greedy and lazy repetition, ordered alternation)
    driven by a left-to-right scan.  The directory is an association list
    in enumeration order and holds regular, readable text files. *)

From Stdlib Require Import List String Ascii NArith Arith Lia Bool.
Import ListNotations.
Local Open Scope string_scope.
Local Open Scope nat_scope.
Local Open Scope list_scope.

(** ** Characters and text *)

Definition char := N.
Definition text := list char.

(** A text literal: the code points of an ASCII string. *)
Definition str (s : string) : text :=
  map N_of_ascii (list_ascii_of_string s).

(** A text literal in which the backquote stands for the double quote. *)
Definition qstr (s : string) : text :=
  map (fun c => if (c =? 96)%N then 34%N else c) (str s).

Definition NL : char := 10%N.
Definition LT : char := 60%N.
Definition GT : char := 62%N.
Definition QUOTE : char := 34%N.
Definition SLASH : char := 47%N.

(** [\s] on a [str] pattern: the code points for which
    [Py_UNICODE_ISSPACE] holds. *)
Definition is_space (c : char) : bool :=
  ((9 <=? c) && (c <=? 13) || (28 <=? c) && (c <=? 32)
   || (c =? 133) || (c =? 160) || (c =? 5760)
   || (8192 <=? c) && (c <=? 8202)
   || (c =? 8232) || (c =? 8233) || (c =? 8239) || (c =? 8287)
   || (c =? 12288))%N.

Definition is_upper_ascii (c : char) : bool := ((65 <=? c) && (c <=? 90))%N.
Definition is_lower_ascii (c : char) : bool := ((97 <=? c) && (c <=? 122))%N.

(** Lower case of a pattern letter. *)
Definition lower_ascii (c : char) : char :=
  if is_upper_ascii c then (c + 32)%N else c.

(** [sre_lower_unicode] on the code points whose lower case is an ASCII
    letter: the ASCII capitals, U+0130 (to [i]) and U+212A (to [k]); every
    other code point is mapped outside the ASCII letters or to itself. *)
Definition sre_lower (c : char) : char :=
  if is_upper_ascii c then (c + 32)%N
  else if (c =? 304)%N then 105%N
  else if (c =? 8490)%N then 107%N
  else c.

(** A literal [x] compiled under [re.I]: the text character is lowered and
    compared with the lowered literal, or with its entry in the table of
    case fixes ([i] with U+0131, [s] with U+017F).  A literal that is not a
    letter is compared as it is. *)
Definition ci_eq (x c : char) : bool :=
  if is_upper_ascii x || is_lower_ascii x then
    let lo := lower_ascii x in
    let lc := sre_lower c in
    ((lc =? lo) || (lo =? 105) && (lc =? 305) || (lo =? 115) && (lc =? 383))%N
  else (c =? x)%N.

(** ** Regular expressions

    The syntax covers what the script's patterns use: a literal character
    compiled under [re.I], a character class, and repetition, which is
    always over a character class: white space, any character but [>],
    any character but the double quote, newline, any character. *)

Inductive regex : Type :=
| Eps : regex
| Lit : char -> regex
| Cls : (char -> bool) -> regex
| Seq : regex -> regex -> regex
| Alt : regex -> regex -> regex
| Opt : regex -> regex
| Star : (char -> bool) -> regex
| LazyStar : (char -> bool) -> regex.

(** Greedy [[p]*] followed by the continuation [k]: take as many characters
    as possible, give them back one at a time. *)
Fixpoint star_greedy (p : char -> bool) (k : text -> option text)
         (s : text) : option text :=
  match s with
  | c :: s' =>
      if p c then
        match star_greedy p k s' with
        | Some r => Some r
        | None => k s
        end
      else k s
  | [] => k []
  end.

(** Lazy [[p]*?]: try the continuation first, take one more on failure. *)
Fixpoint star_lazy (p : char -> bool) (k : text -> option text)
         (s : text) : option text :=
  match k s with
  | Some r => Some r
  | None =>
      match s with
      | c :: s' => if p c then star_lazy p k s' else None
      | [] => None
      end
  end.

(** The backtracking matcher: [m r k s] matches [r] at the head of [s] and
    hands the rest to [k]; the first success in priority order wins. *)
Fixpoint m (r : regex) (k : text -> option text) (s : text) : option text :=
  match r with
  | Eps => k s
  | Lit x =>
      match s with
      | c :: s' => if ci_eq x c then k s' else None
      | [] => None
      end
  | Cls p =>
      match s with
      | c :: s' => if p c then k s' else None
      | [] => None
      end
  | Seq r1 r2 => m r1 (m r2 k) s
  | Alt r1 r2 =>
      match m r1 k s with
      | Some x => Some x
      | None => m r2 k s
      end
  | Opt r1 =>
      match m r1 k s with
      | Some x => Some x
      | None => k s
      end
  | Star p => star_greedy p k s
  | LazyStar p => star_lazy p k s
  end.

(** The language of a pattern: the words it matches, without priorities. *)
Fixpoint matches (r : regex) (w : text) : Prop :=
  match r with
  | Eps => w = []
  | Lit x => exists c, w = [c] /\ ci_eq x c = true
  | Cls p => exists c, w = [c] /\ p c = true
  | Seq r1 r2 => exists u v, w = u ++ v /\ matches r1 u /\ matches r2 v
  | Alt r1 r2 => matches r1 w \/ matches r2 w
  | Opt r1 => w = [] \/ matches r1 w
  | Star p => forallb p w = true
  | LazyStar p => forallb p w = true
  end.

(** [pattern.match] at the head of [s]: the text left after the match. *)
Definition match_at (r : regex) (s : text) : option text :=
  m r (fun rest => Some rest) s.

(** [rx.sub(repl, text)]: scan left to right; at a position where the
    pattern matches, emit [repl] and resume after the match.  [skip] counts
    the characters of the current match still to be dropped.  An empty
    match emits [repl] and copies the character. *)
Fixpoint sub_aux (r : regex) (repl : text) (skip : nat) (s : text) : text :=
  match s with
  | [] =>
      match skip with
      | O => match match_at r [] with Some _ => repl | None => [] end
      | S _ => []
      end
  | c :: s' =>
      match skip with
      | S k => sub_aux r repl k s'
      | O =>
          match match_at r s with
          | None => c :: sub_aux r repl 0 s'
          | Some rest =>
              match List.length s - List.length rest with
              | O => repl ++ c :: sub_aux r repl 0 s'
              | S k => repl ++ sub_aux r repl k s'
              end
          end
      end
  end.

Definition sub (r : regex) (repl : text) (s : text) : text :=
  sub_aux r repl 0 s.

(** ** The patterns of the script *)

Definition any_char (c : char) : bool := true.
Definition not_gt (c : char) : bool := negb (c =? GT)%N.
Definition is_quote (c : char) : bool := (c =? QUOTE)%N.
Definition not_quote (c : char) : bool := negb (c =? QUOTE)%N.
Definition is_nl (c : char) : bool := (c =? NL)%N.
Definition digit_1_6 (c : char) : bool := ((49 <=? c) && (c <=? 54))%N.

(** A literal string under [re.I]. *)
Fixpoint ilit_text (l : text) : regex :=
  match l with
  | [] => Eps
  | x :: l' => Seq (Lit x) (ilit_text l')
  end.

Definition ilit (s : string) : regex := ilit_text (str s).

Fixpoint seqs (l : list regex) : regex :=
  match l with
  | [] => Eps
  | r :: l' => Seq r (seqs l')
  end.

Definition ws : regex := Star is_space.
Definition lead : regex := Seq (Opt (Cls is_nl)) ws.

(** The anchor part shared by patterns[0] and patterns[1].  The source
    writes the quote class with the double quote and the escaped double
    quote: it holds the double quote alone. *)
Definition anchor_core : list regex :=
  [ ilit "<a"; Star not_gt; ilit "href="; Cls is_quote;
    Star not_quote; ilit "blog"; Star not_quote; Cls is_quote;
    Star not_gt; ilit ">"; ws; ilit "Blog"; ws; ilit "</a>" ].

(** patterns[0] *)
Definition rx_li : regex :=
  seqs ([lead; ilit "<li"; Star not_gt; ilit ">"; ws]
        ++ anchor_core ++ [ws; ilit "</li>"; ws]).

(** patterns[1] *)
Definition rx_a : regex := seqs ([lead] ++ anchor_core ++ [ws]).

(** patterns[2] *)
Definition rx_section : regex :=
  seqs [ ilit "<section"; Star not_gt; Alt (ilit "id") (ilit "class");
         ilit "="; Cls is_quote; Star not_quote; ilit "blog";
         Star not_quote; Cls is_quote; Star not_gt; ilit ">";
         LazyStar any_char; ilit "</section>" ].

(** patterns[3] *)
Definition rx_h : regex :=
  seqs [ lead; ilit "<h"; Cls digit_1_6; Star not_gt; ilit ">"; ws;
         ilit "Blog"; ws; ilit "</h"; Cls digit_1_6; ilit ">"; ws ].

Definition patterns : list (regex * text) :=
  [ (rx_li, []); (rx_a, []); (rx_section, []); (rx_h, []) ].

(** [\n{3,}] *)
Definition rx_nl3 : regex :=
  seqs [ Cls is_nl; Cls is_nl; Cls is_nl; Star is_nl ].

(** [for rx, repl in patterns: text = rx.sub(repl, text)] *)
Definition apply_rules (ps : list (regex * text)) (t : text) : text :=
  fold_left (fun acc p => sub (fst p) (snd p) acc) ps t.

(** [re.sub(r'\n{3,}', '\n\n', text)] *)
Definition collapse (t : text) : text := sub rx_nl3 [NL; NL] t.

(** The text the loop body computes from a file's content. *)
Definition transform (t : text) : text := collapse (apply_rules patterns t).

(** ** The directory and the run *)

(** The directory of the script, in enumeration order: name and content
    of each file. *)
Definition dir := list (string * text).

Fixpoint read_text (d : dir) (n : string) : option text :=
  match d with
  | [] => None
  | (n', t) :: d' => if String.eqb n' n then Some t else read_text d' n
  end.

Fixpoint write_text (d : dir) (n : string) (t : text) : dir :=
  match d with
  | [] => [(n, t)]
  | (n', t') :: d' =>
      if String.eqb n' n then (n', t) :: d' else (n', t') :: write_text d' n t
  end.

Fixpoint unlink (d : dir) (n : string) : dir :=
  match d with
  | [] => []
  | (n', t') :: d' =>
      if String.eqb n' n then d' else (n', t') :: unlink d' n
  end.

Definition exists_ (d : dir) (n : string) : bool :=
  match read_text d n with Some _ => true | None => false end.

(** [fnmatch] of a name against [*.html]. *)
Definition is_html (n : string) : bool :=
  let l := String.length n in
  (5 <=? l) && String.eqb (substring (l - 5) 5 n) ".html".

(** [root.glob('*.html')] *)
Definition glob_html (d : dir) : list string :=
  filter is_html (map fst d).

Definition text_eqb (a b : text) : bool :=
  if list_eq_dec N.eq_dec a b then true else false.

(** The state of a run: the directory, the log of [write_text] calls and
    the list [changed]. *)
Record state : Type := mkState {
  fs : dir;
  writes : list string;
  changed : list string
}.

(** The body of the first loop for the file named [p]; [None] is the
    fault of reading a file that is not there. *)
Definition process_file (st : state) (p : string) : option state :=
  match read_text (fs st) p with
  | None => None
  | Some original =>
      let text := transform original in
      if text_eqb text original then Some st
      else Some {| fs := write_text (fs st) p text;
                   writes := writes st ++ [p];
                   changed := changed st ++ [p] |}
  end.

Fixpoint process_all (ps : list string) (st : state) : option state :=
  match ps with
  | [] => Some st
  | p :: ps' =>
      match process_file st p with
      | None => None
      | Some st' => process_all ps' st'
      end
  end.

(** The entry recorded for a deleted file. *)
Definition deleted_entry (name : string) : string :=
  (name ++ " (deleted)")%string.

(** The body of the second loop. *)
Definition delete_if_present (st : state) (name : string) : state :=
  if exists_ (fs st) name then
    {| fs := unlink (fs st) name;
       writes := writes st;
       changed := changed st ++ [deleted_entry name] |}
  else st.

Definition fixed_names : list string := ["blog.html"; "blogs.html"].

Definition newline : string := String (ascii_of_nat 10) EmptyString.

(** The argument of the final [print]. *)
Definition report (l : list string) : string :=
  match l with
  | [] => "No changes"
  | _ => String.concat newline l
  end.

(** One run of the script on the directory [d]: the final state and the
    printed text. *)
Definition run (d : dir) : option (state * string) :=
  match process_all (glob_html d) (mkState d [] []) with
  | None => None
  | Some st =>
      let st' := fold_left delete_if_present fixed_names st in
      Some (st', report (changed st'))
  end.

(** The files the first loop rewrites: those whose transformed text
    differs from what is read. *)
Definition needs_write (d : dir) (p : string) : bool :=
  match read_text d p with
  | Some t => negb (text_eqb (transform t) t)
  | None => false
  end.

(** ** Shapes of text used in the statements *)

(** The number of [<] in a text. *)
Definition count_lt (s : text) : nat := count_occ N.eq_dec s LT.

(** [head_is x s]: the text starts with the letter [x], in either case. *)
Definition head_is (x : char) (s : text) : bool :=
  match s with
  | c :: _ => ci_eq x c
  | [] => false
  end.

(** [has_open x s]: somewhere in [s] a [<] is followed by the letter [x],
    in either case: a tag whose name starts with [x] opens in [s]. *)
Fixpoint has_open (x : char) (s : text) : bool :=
  match s with
  | [] => false
  | a :: s' => ((a =? LT)%N && head_is x s') || has_open x s'
  end.

(** The last character of the text is [<]. *)
Definition ends_lt (s : text) : bool := (last s 0 =? LT)%N.

(** A lower bound on the number of [<] in the words of a pattern. *)
Fixpoint min_count (r : regex) : nat :=
  match r with
  | Lit x => if (x =? LT)%N then 1 else 0
  | Seq r1 r2 => min_count r1 + min_count r2
  | Alt r1 r2 => Nat.min (min_count r1) (min_count r2)
  | _ => 0
  end.

(** The anchor pattern between its first and its last literal. *)
Definition anchor_mid : list regex :=
  [ Star not_gt; ilit "href="; Cls is_quote;
    Star not_quote; ilit "blog"; Star not_quote; Cls is_quote;
    Star not_gt; ilit ">"; ws; ilit "Blog"; ws ].

(** The patterns without the white space they take around the element. *)
Definition li_core : list regex :=
  [ilit "<li"; Star not_gt; ilit ">"; ws] ++ anchor_core ++ [ws; ilit "</li>"].

Definition h_core : list regex :=
  [ ilit "<h"; Cls digit_1_6; Star not_gt; ilit ">"; ws;
    ilit "Blog"; ws; ilit "</h"; Cls digit_1_6; ilit ">" ].

(** The names the second loop looks for. *)
Definition is_fixed (q : string) : bool :=
  String.eqb "blog.html" q || String.eqb "blogs.html" q.

(** A directory used in the examples. *)
Definition dir_example : dir :=
  [ ("index.html", str "<h1>Home</h1><h2>Blog</h2>");
    ("about.html", str "<p>About</p>");
    ("blog.html", qstr "<ul><li><a href=`/blog`>Blog</a></li></ul>");
    ("notes.txt", str "<h2>Blog</h2>") ].

(** [subseq a b]: [a] is [b] with some characters left out. *)
Inductive subseq : text -> text -> Prop :=
| subseq_nil : subseq [] []
| subseq_skip : forall a b c, subseq a b -> subseq a (c :: b)
| subseq_keep : forall a b c, subseq a b -> subseq (c :: a) (c :: b).

(** [prefix_ci l s]: the text [s] starts with the literal [l], compared
    as [re.I] compares. *)
Fixpoint prefix_ci (l s : text) : bool :=
  match l, s with
  | [], _ => true
  | x :: l', c :: s' => ci_eq x c && prefix_ci l' s'
  | _ :: _, [] => false
  end.

(** [occurs_ci l s]: the literal [l] occurs somewhere in [s], in any mix
    of cases. *)
Fixpoint occurs_ci (l s : text) : bool :=
  prefix_ci l s ||
  match s with
  | [] => false
  | _ :: s' => occurs_ci l s'
  end.

(** Three newlines in a row at the head of a text, and somewhere in it. *)
Definition starts_nl3 (s : text) : bool :=
  match s with
  | a :: b :: c :: _ => is_nl a && is_nl b && is_nl c
  | _ => false
  end.

Fixpoint has_nl3 (s : text) : bool :=
  match s with
  | [] => false
  | _ :: s' => starts_nl3 s || has_nl3 s'
  end.

(** The character [a] occurs in the string [s]. *)
Fixpoint has_char (a : ascii) (s : string) : bool :=
  match s with
  | EmptyString => false
  | String c s' => Ascii.eqb a c || has_char a s'
  end.

(** The opening tag of patterns[2], and its part before the quoted value. *)
Definition section_key : list regex :=
  [ ilit "<section"; Star not_gt; Alt (ilit "id") (ilit "class"); ilit "=" ].

Definition section_open : list regex :=
  section_key ++
  [ Cls is_quote; Star not_quote; ilit "blog"; Star not_quote;
    Cls is_quote; Star not_gt; ilit ">" ].

(** [rx.search(s)] finds a match. *)
Fixpoint found (r : regex) (s : text) : bool :=
  match match_at r s with
  | Some _ => true
  | None =>
      match s with
      | [] => false
      | _ :: s' => found r s'
      end
  end.

(** No tag whose name starts with [l], [a], [s] or [h] opens in the text:
    none of the four patterns can start in it. *)
Definition tame (s : text) : bool :=
  negb (has_open 108%N s || has_open 97%N s
        || has_open 115%N s || has_open 104%N s).

(** The closing tag of the heading pattern. *)
Definition h_close : list regex := [ ilit "</h"; Cls digit_1_6; ilit ">" ].

(** What every match of the list-item rule and of the anchor rule holds:
    the link text [Blog], alone up to white space, before [</a>]. *)
Definition link_text : list regex :=
  [ ilit ">"; ws; ilit "Blog"; ws; ilit "</a>" ].

(** What every match of the heading rule holds. *)
Definition heading_text : list regex :=
  [ ilit ">"; ws; ilit "Blog"; ws; ilit "</h" ].

(** The [href] attribute every match of the list-item rule and of the
    anchor rule holds: a double-quoted value with [blog] in it. *)
Definition href_blog : list regex :=
  [ ilit "href="; Cls is_quote; Star not_quote; ilit "blog";
    Star not_quote; Cls is_quote ].

(** A text cut into blocks: each block is a piece of text followed by a
    run of newlines.  [join_runs] puts the blocks together again. *)
Fixpoint join_runs (bs : list (text * nat)) : text :=
  match bs with
  | [] => []
  | (a, k) :: bs' => a ++ repeat NL k ++ join_runs bs'
  end.

(** The blocks cut the text at its maximal runs of newlines: no piece
    holds a newline, and every piece but the first is not empty, so that
    no two runs touch. *)
Definition runs_ok (bs : list (text * nat)) : bool :=
  forallb (fun b => negb (existsb is_nl (fst b))) bs
  && forallb (fun b => negb (Nat.eqb (List.length (fst b)) 0)) (tl bs).

(** ** Examples *)

Example ex_li :
  transform (qstr "<ul><li><a href=`/blog`>Blog</a></li></ul>") = str "<ul></ul>".
Proof. vm_compute. reflexivity. Qed.

(** ** The first loop *)

Lemma text_eqb_eq (a b : text) : text_eqb a b = true <-> a = b.
Proof. unfold text_eqb. destruct (list_eq_dec N.eq_dec a b); split; congruence. Qed.

Lemma read_write_same d n t :
  read_text d n <> None -> read_text (write_text d n t) n = Some t.
Proof.
  induction d as [|[n' t'] d IH]; simpl; [congruence|].
  destruct (String.eqb n' n) eqn:E; simpl; rewrite E; auto.
Qed.

Lemma read_write_other d n t q :
  q <> n -> read_text (write_text d n t) q = read_text d q.
Proof.
  intros Hq. induction d as [|[n' t'] d IH]; simpl.
  - destruct (String.eqb n q) eqn:E; [apply String.eqb_eq in E; congruence | reflexivity].
  - destruct (String.eqb n' n) eqn:E; simpl.
    + apply String.eqb_eq in E. subst n'.
      destruct (String.eqb n q) eqn:E'; [apply String.eqb_eq in E'; congruence | reflexivity].
    + rewrite IH. reflexivity.
Qed.

Lemma process_all_spec ps :
  forall st, NoDup ps ->
    (forall p, In p ps -> read_text (fs st) p <> None) ->
    exists st', process_all ps st = Some st'
      /\ writes st' = writes st ++ filter (needs_write (fs st)) ps
      /\ changed st' = changed st ++ filter (needs_write (fs st)) ps
      /\ (forall q, In q ps ->
            read_text (fs st') q = option_map transform (read_text (fs st) q))
      /\ (forall q, ~ In q ps -> read_text (fs st') q = read_text (fs st) q).
Proof.
  induction ps as [|p ps IH]; intros st Hnd Hex.
  - exists st. simpl. rewrite !app_nil_r. repeat split; auto. intros q [].
  - inversion Hnd as [|? ? Hnotin Hnd']; subst.
    assert (Hp : read_text (fs st) p <> None) by (apply Hex; left; reflexivity).
    simpl. unfold process_file, needs_write.
    destruct (read_text (fs st) p) as [t|] eqn:Hr; [|congruence].
    destruct (text_eqb (transform t) t) eqn:Ht; simpl.
    + destruct (IH st Hnd') as (st' & Hrun & Hw & Hc & Hin & Hout).
      { intros q Hq. apply Hex. right. exact Hq. }
      exists st'. split; [exact Hrun|]. split; [exact Hw|]. split; [exact Hc|]. split.
      * intros q [->|Hq]; [|auto].
        rewrite Hout by assumption. rewrite Hr. simpl.
        apply text_eqb_eq in Ht. congruence.
      * intros q Hq. apply Hout. intros Hq'. apply Hq. right. exact Hq'.
    + set (st1 := {| fs := write_text (fs st) p (transform t);
                     writes := writes st ++ [p];
                     changed := changed st ++ [p] |}).
      assert (Hsame : forall q, In q ps -> read_text (fs st1) q = read_text (fs st) q).
      { intros q Hq. simpl. apply read_write_other. intros ->. contradiction. }
      destruct (IH st1 Hnd') as (st' & Hrun & Hw & Hc & Hin & Hout).
      { intros q Hq. rewrite Hsame by assumption. apply Hex. right. exact Hq. }
      assert (Hf : filter (needs_write (fs st1)) ps = filter (needs_write (fs st)) ps).
      { apply filter_ext_in. intros q Hq. unfold needs_write. rewrite Hsame; auto. }
      exists st'. split; [exact Hrun|].
      rewrite Hw, Hc, Hf. simpl. rewrite <- !app_assoc. simpl.
      split; [reflexivity|]. split; [reflexivity|]. split.
      * intros q [->|Hq].
        -- rewrite Hout by assumption. simpl. rewrite read_write_same by congruence.
           rewrite Hr. reflexivity.
        -- rewrite Hin by assumption. rewrite Hsame by assumption. reflexivity.
      * intros q Hq. rewrite Hout by (intros Hq'; apply Hq; right; exact Hq').
        simpl. apply read_write_other. intros ->. apply Hq. left. reflexivity.
Qed.
Lemma read_text_None d n : read_text d n = None <-> ~ In n (map fst d).
Proof.
  induction d as [|[n' t] d IH]; simpl; [tauto|].
  destruct (String.eqb n' n) eqn:E.
  - apply String.eqb_eq in E. split; [discriminate | intros H; exfalso; apply H; auto].
  - apply String.eqb_neq in E. rewrite IH. tauto.
Qed.

Lemma read_text_In d n t :
  NoDup (map fst d) -> In (n, t) d -> read_text d n = Some t.
Proof.
  induction d as [|[n' t'] d IH]; simpl; intros Hnd Hin; [contradiction|].
  inversion Hnd as [|? ? Hn Hnd']; subst.
  destruct Hin as [Heq|Hin].
  - inversion Heq; subst. rewrite String.eqb_refl. reflexivity.
  - destruct (String.eqb n' n) eqn:E; [|auto].
    apply String.eqb_eq in E. subst n'. exfalso. apply Hn.
    apply (in_map fst) in Hin. exact Hin.
Qed.

Lemma write_text_names d n t :
  read_text d n <> None -> map fst (write_text d n t) = map fst d.
Proof.
  induction d as [|[n' t'] d IH]; simpl; [congruence|].
  destruct (String.eqb n' n) eqn:E; simpl; intros H; [reflexivity|].
  rewrite IH by assumption. reflexivity.
Qed.

Lemma process_all_names ps :
  forall st st', process_all ps st = Some st' ->
    map fst (fs st') = map fst (fs st).
Proof.
  induction ps as [|p ps IH]; simpl; intros st st' H.
  - inversion H. reflexivity.
  - unfold process_file in H.
    destruct (read_text (fs st) p) as [t|] eqn:Hr; [|discriminate].
    destruct (text_eqb (transform t) t).
    + apply IH. exact H.
    + rewrite (IH _ _ H). simpl. apply write_text_names. congruence.
Qed.

Lemma unlink_read d n q :
  NoDup (map fst d) ->
  read_text (unlink d n) q = if String.eqb n q then None else read_text d q.
Proof.
  induction d as [|[n' t'] d IH]; simpl; intros Hnd.
  - destruct (String.eqb n q); reflexivity.
  - inversion Hnd as [|? ? Hn Hnd']; subst.
    destruct (String.eqb n' n) eqn:E.
    + apply String.eqb_eq in E. subst n'.
      destruct (String.eqb n q) eqn:E'; [|reflexivity].
      apply String.eqb_eq in E'. subst q. apply read_text_None. exact Hn.
    + simpl. rewrite IH by assumption.
      destruct (String.eqb n' q) eqn:E1; [|reflexivity].
      apply String.eqb_eq in E1. subst q.
      rewrite String.eqb_sym, E. reflexivity.
Qed.

Lemma unlink_names_NoDup d n :
  NoDup (map fst d) -> NoDup (map fst (unlink d n)).
Proof.
  induction d as [|[n' t'] d IH]; simpl; intros Hnd; [constructor|].
  inversion Hnd as [|? ? Hn Hnd']; subst.
  destruct (String.eqb n' n); [exact Hnd'|].
  simpl. constructor; [|auto].
  intros Hin. apply Hn. clear - Hin.
  induction d as [|[m t] d IH]; simpl in *; [contradiction|].
  destruct (String.eqb m n); [right; exact Hin|].
  simpl in Hin. destruct Hin; [left; assumption | right; auto].
Qed.

Lemma glob_html_NoDup d : NoDup (map fst d) -> NoDup (glob_html d).
Proof. intros H. unfold glob_html. apply NoDup_filter. exact H. Qed.

Lemma glob_html_In d p : In p (glob_html d) <-> In p (map fst d) /\ is_html p = true.
Proof. unfold glob_html. apply filter_In. Qed.

(** The state after the first loop. *)
Lemma first_loop_spec d :
  NoDup (map fst d) ->
  exists st, process_all (glob_html d) (mkState d [] []) = Some st
    /\ writes st = filter (needs_write d) (glob_html d)
    /\ changed st = filter (needs_write d) (glob_html d)
    /\ map fst (fs st) = map fst d
    /\ (forall q, read_text (fs st) q =
          if is_html q then option_map transform (read_text d q)
          else read_text d q).
Proof.
  intros Hnd.
  destruct (@process_all_spec (glob_html d) (mkState d [] []))
    as (st & Hrun & Hw & Hc & Hin & Hout).
  - apply glob_html_NoDup. exact Hnd.
  - intros p Hp. simpl. apply glob_html_In in Hp. rewrite read_text_None. tauto.
  - exists st. simpl in *. split; [exact Hrun|]. split; [exact Hw|].
    split; [exact Hc|]. split.
    + apply (process_all_names _ _ _ Hrun).
    + intros q. destruct (is_html q) eqn:Hq.
      * destruct (in_dec string_dec q (map fst d)) as [Hi|Hi].
        -- apply Hin. apply glob_html_In. tauto.
        -- rewrite Hout by (rewrite glob_html_In; tauto).
           apply read_text_None in Hi. rewrite Hi. reflexivity.
      * apply Hout. rewrite glob_html_In. rewrite Hq. intros [_ ?]. discriminate.
Qed.

(** ** The second loop and the run *)

Lemma exists_after_loop d st :
  (forall q, read_text (fs st) q =
     if is_html q then option_map transform (read_text d q) else read_text d q) ->
  forall n, exists_ (fs st) n = exists_ d n.
Proof.
  intros H n. unfold exists_. rewrite H.
  destruct (is_html n); destruct (read_text d n); reflexivity.
Qed.

(** One step of the second loop, on the directory. *)
Lemma delete_if_present_spec st name :
  NoDup (map fst (fs st)) ->
  let st' := delete_if_present st name in
  NoDup (map fst (fs st'))
  /\ writes st' = writes st
  /\ changed st' =
       changed st ++ map deleted_entry (filter (exists_ (fs st)) [name])
  /\ (forall q, read_text (fs st') q =
        if String.eqb name q then None else read_text (fs st) q).
Proof.
  intros Hnd. unfold delete_if_present. simpl.
  destruct (exists_ (fs st) name) eqn:E; simpl.
  - split; [apply unlink_names_NoDup; exact Hnd|].
    split; [reflexivity|]. split; [reflexivity|].
    intros q. apply unlink_read. exact Hnd.
  - split; [exact Hnd|]. split; [reflexivity|].
    split; [rewrite app_nil_r; reflexivity|].
    intros q. destruct (String.eqb name q) eqn:E'; [|reflexivity].
    apply String.eqb_eq in E'. subst q. unfold exists_ in E.
    destruct (read_text (fs st) name); [discriminate | reflexivity].
Qed.

(** The whole run: it ends without fault, and its final state and output
    are given by the initial directory. *)
Lemma run_spec d :
  NoDup (map fst d) ->
  exists st, run d = Some (st, report (changed st))
    /\ writes st = filter (needs_write d) (glob_html d)
    /\ changed st = filter (needs_write d) (glob_html d)
                    ++ map deleted_entry (filter (exists_ d) fixed_names)
    /\ (forall q, read_text (fs st) q =
          if is_fixed q then None
          else if is_html q then option_map transform (read_text d q)
          else read_text d q).
Proof.
  intros Hnd. destruct (first_loop_spec d Hnd) as (st & Hrun & Hw & Hc & Hn & Hr).
  unfold run. rewrite Hrun. unfold fixed_names. simpl fold_left.
  assert (Hnd1 : NoDup (map fst (fs st))) by (rewrite Hn; exact Hnd).
  destruct (delete_if_present_spec st "blog.html" Hnd1) as (Hnd2 & Hw2 & Hc2 & Hr2).
  destruct (delete_if_present_spec _ "blogs.html" Hnd2) as (_ & Hw3 & Hc3 & Hr3).
  set (st1 := delete_if_present st "blog.html") in *.
  set (st2 := delete_if_present st1 "blogs.html") in *.
  exists st2. split; [reflexivity|].
  split; [congruence|]. split.
  - rewrite Hc3, Hc2, Hc, <- app_assoc. f_equal.
    assert (E1 : exists_ (fs st) "blog.html" = exists_ d "blog.html")
      by (apply exists_after_loop; exact Hr).
    assert (E2 : exists_ (fs st1) "blogs.html" = exists_ d "blogs.html").
    { unfold exists_ at 1. rewrite Hr2. simpl.
      apply (exists_after_loop d st Hr). }
    simpl. rewrite E1, E2.
    destruct (exists_ d "blog.html"), (exists_ d "blogs.html"); reflexivity.
  - intros q. rewrite Hr3, Hr2, Hr. unfold is_fixed.
    destruct (String.eqb "blogs.html" q), (String.eqb "blog.html" q); reflexivity.
Qed.

(** A directory written out has distinct names. *)
Ltac nodup_names := simpl; repeat constructor; simpl; intuition discriminate.

(** ** Examples of runs *)

Example run_dir_example :
  option_map snd (run dir_example)
  = Some ("index.html" ++ newline ++ "blog.html" ++ newline
          ++ "blog.html (deleted)")%string.
Proof. vm_compute. reflexivity. Qed.

Example run_no_changes :
  option_map snd (run [("about.html", str "<p>About</p>")]) = Some "No changes".
Proof. vm_compute. reflexivity. Qed.

(** ** Substitution: general facts *)

Lemma sub_aux_skip r repl k : forall s,
  k <= List.length s ->
  sub_aux r repl k s = sub_aux r repl 0 (skipn k s).
Proof.
  induction k as [|k IH]; intros s Hk; [reflexivity|].
  destruct s as [|c s]; simpl in *; [lia|].
  apply IH. lia.
Qed.

Lemma sub_aux_cons r repl c s :
  sub_aux r repl 0 (c :: s) =
  match match_at r (c :: s) with
  | None => c :: sub_aux r repl 0 s
  | Some rest =>
      match List.length (c :: s) - List.length rest with
      | O => repl ++ c :: sub_aux r repl 0 s
      | S k => repl ++ sub_aux r repl k s
      end
  end.
Proof. reflexivity. Qed.

Lemma sub_nomatch_cons r repl c s :
  match_at r (c :: s) = None ->
  sub r repl (c :: s) = c :: sub r repl s.
Proof. intros H. unfold sub. simpl. rewrite H. reflexivity. Qed.

(** A match of the non-empty prefix [w] is replaced and the scan resumes
    after it. *)
Lemma sub_match_app r repl w rest :
  w <> [] ->
  match_at r (w ++ rest) = Some rest ->
  sub r repl (w ++ rest) = repl ++ sub r repl rest.
Proof.
  intros Hw H. unfold sub.
  destruct w as [|c w]; [congruence|].
  simpl app in *. rewrite sub_aux_cons, H.
  assert (E : List.length (c :: w ++ rest) - List.length rest = S (List.length w)).
  { change (List.length (c :: w ++ rest)) with (S (List.length (w ++ rest))).
    rewrite length_app. lia. }
  rewrite E.
  rewrite sub_aux_skip by (rewrite length_app; lia).
  rewrite skipn_app, skipn_all, Nat.sub_diag. reflexivity.
Qed.

(** A prefix inside which the pattern matches nowhere is copied. *)
Lemma sub_prefix r repl pre : forall rest,
  (forall u v, pre = u ++ v -> v <> [] -> match_at r (v ++ rest) = None) ->
  sub r repl (pre ++ rest) = pre ++ sub r repl rest.
Proof.
  induction pre as [|c pre IH]; intros rest H; [reflexivity|].
  simpl app. rewrite sub_nomatch_cons.
  - f_equal. apply IH. intros u v E Hv. apply (H (c :: u) v); [|exact Hv].
    simpl. rewrite E. reflexivity.
  - apply (H [] (c :: pre)); [reflexivity | discriminate].
Qed.

(** ** The blank-line collapse *)

Lemma is_nl_NL : is_nl NL = true.
Proof. reflexivity. Qed.

Lemma is_nl_false c : c <> NL -> is_nl c = false.
Proof. intros H. unfold is_nl. apply N.eqb_neq. exact H. Qed.

Lemma hd_not_nl b : hd 0%N b <> NL ->
  match b with [] => True | c :: _ => is_nl c = false end.
Proof. destruct b as [|c b]; simpl; [trivial | apply is_nl_false]. Qed.

(** The greedy newline star takes the whole run. *)
Lemma star_nl_run j b :
  hd 0%N b <> NL ->
  star_greedy is_nl (fun rest => Some rest) (repeat NL j ++ b) = Some b.
Proof.
  intros Hb. induction j as [|j IH]; simpl.
  - apply hd_not_nl in Hb. destruct b as [|c b]; [reflexivity|].
    simpl. rewrite Hb. reflexivity.
  - rewrite IH. reflexivity.
Qed.

Lemma match_nl3_long j b :
  hd 0%N b <> NL ->
  match_at rx_nl3 (repeat NL (3 + j) ++ b) = Some b.
Proof.
  intros Hb. unfold match_at, rx_nl3. simpl.
  apply (star_nl_run j b Hb).
Qed.

Lemma match_nl3_short j b :
  j < 3 -> hd 0%N b <> NL ->
  match_at rx_nl3 (repeat NL j ++ b) = None.
Proof.
  intros Hj Hb. apply hd_not_nl in Hb. unfold match_at, rx_nl3.
  destruct j as [|[|[|j]]]; [| | |lia]; simpl;
    destruct b as [|c b]; simpl; try rewrite Hb; reflexivity.
Qed.

Lemma match_nl3_other c s : c <> NL -> match_at rx_nl3 (c :: s) = None.
Proof.
  intros Hc. unfold match_at, rx_nl3. simpl.
  rewrite (is_nl_false c Hc). reflexivity.
Qed.

Lemma collapse_no_nl_prefix a rest :
  ~ In NL a -> collapse (a ++ rest) = a ++ collapse rest.
Proof.
  intros Ha. unfold collapse. apply sub_prefix.
  intros u v E Hv. destruct v as [|c v]; [congruence|].
  simpl. apply match_nl3_other. intros ->. apply Ha.
  rewrite E. apply in_or_app. right. left. reflexivity.
Qed.

Lemma collapse_run k b :
  hd 0%N b <> NL ->
  collapse (repeat NL k ++ b) = repeat NL (Nat.min k 2) ++ collapse b.
Proof.
  intros Hb. unfold collapse.
  destruct (le_lt_dec 3 k) as [Hk|Hk].
  - replace k with (3 + (k - 3)) at 1 by lia.
    rewrite sub_match_app.
    + replace (Nat.min k 2) with 2 by lia. reflexivity.
    + discriminate.
    + apply match_nl3_long. exact Hb.
  - destruct k as [|[|[|k]]]; [| | |lia].
    + reflexivity.
    + simpl. rewrite sub_nomatch_cons; [reflexivity|].
      apply (match_nl3_short 1 b); [lia | exact Hb].
    + simpl. rewrite sub_nomatch_cons.
      * rewrite sub_nomatch_cons; [reflexivity|].
        apply (match_nl3_short 1 b); [lia | exact Hb].
      * apply (match_nl3_short 2 b); [lia | exact Hb].
Qed.

(** ** The matcher and the language of a pattern *)

Lemma star_greedy_sound p k : forall s x,
  star_greedy p k s = Some x ->
  exists w rest, s = w ++ rest /\ forallb p w = true /\ k rest = Some x.
Proof.
  induction s as [|c s IH]; intros x H; simpl in H.
  - exists [], []. auto.
  - destruct (p c) eqn:Hc.
    + destruct (star_greedy p k s) as [r|] eqn:Hs.
      * inversion H; subst r. destruct (IH x eq_refl) as (w & rest & E & Hw & Hk).
        exists (c :: w), rest. subst s. simpl. rewrite Hc. auto.
      * exists [], (c :: s). auto.
    + exists [], (c :: s). auto.
Qed.

Lemma star_lazy_sound p k : forall s x,
  star_lazy p k s = Some x ->
  exists w rest, s = w ++ rest /\ forallb p w = true /\ k rest = Some x.
Proof.
  induction s as [|c s IH]; intros x H; simpl in H.
  - destruct (k []) eqn:Hk; [|discriminate]. inversion H; subst.
    exists [], []. auto.
  - destruct (k (c :: s)) eqn:Hk.
    + inversion H; subst. exists [], (c :: s). auto.
    + destruct (p c) eqn:Hc; [|discriminate].
      destruct (IH x H) as (w & rest & E & Hw & Hk').
      exists (c :: w), rest. subst s. simpl. rewrite Hc. auto.
Qed.

Lemma star_greedy_complete p k : forall w rest,
  forallb p w = true -> k rest <> None ->
  star_greedy p k (w ++ rest) <> None.
Proof.
  induction w as [|c w IH]; intros rest Hw Hk; simpl.
  - destruct rest as [|c rest]; [exact Hk|]. simpl.
    destruct (p c); [|exact Hk].
    destruct (star_greedy p k rest); [discriminate | exact Hk].
  - simpl in Hw. apply andb_true_iff in Hw. destruct Hw as [Hc Hw].
    rewrite Hc. specialize (IH rest Hw Hk).
    destruct (star_greedy p k (w ++ rest)); [discriminate | contradiction].
Qed.

Lemma star_lazy_complete p k : forall w rest,
  forallb p w = true -> k rest <> None ->
  star_lazy p k (w ++ rest) <> None.
Proof.
  induction w as [|c w IH]; intros rest Hw Hk; simpl.
  - destruct rest as [|c rest]; simpl;
      destruct (k _) eqn:E; try discriminate; contradiction.
  - simpl in Hw. apply andb_true_iff in Hw. destruct Hw as [Hc Hw].
    destruct (k (c :: w ++ rest)); [discriminate|].
    rewrite Hc. apply IH; assumption.
Qed.

Lemma m_sound r : forall k s x,
  m r k s = Some x ->
  exists w rest, s = w ++ rest /\ matches r w /\ k rest = Some x.
Proof.
  induction r as [|y|p|r1 IH1 r2 IH2|r1 IH1 r2 IH2|r1 IH1|p|p];
    intros k s x H; simpl in H.
  - exists [], s. simpl. auto.
  - destruct s as [|c s]; [discriminate|].
    destruct (ci_eq y c) eqn:Hc; [|discriminate].
    exists [c], s. simpl. split; [reflexivity|]. split; [|exact H].
    exists c. auto.
  - destruct s as [|c s]; [discriminate|].
    destruct (p c) eqn:Hc; [|discriminate].
    exists [c], s. simpl. split; [reflexivity|]. split; [|exact H].
    exists c. auto.
  - destruct (IH1 _ _ _ H) as (u & rest1 & E1 & Hu & H2).
    destruct (IH2 _ _ _ H2) as (v & rest & E2 & Hv & Hk).
    exists (u ++ v), rest. subst. rewrite app_assoc. split; [reflexivity|].
    split; [|exact Hk]. simpl. exists u, v. auto.
  - destruct (m r1 k s) as [y|] eqn:H1.
    + inversion H; subst y. destruct (IH1 _ _ _ H1) as (w & rest & E & Hw & Hk).
      exists w, rest. simpl. auto.
    + destruct (IH2 _ _ _ H) as (w & rest & E & Hw & Hk).
      exists w, rest. simpl. auto.
  - destruct (m r1 k s) as [y|] eqn:H1.
    + inversion H; subst y. destruct (IH1 _ _ _ H1) as (w & rest & E & Hw & Hk).
      exists w, rest. simpl. auto.
    + exists [], s. simpl. auto.
  - apply star_greedy_sound in H. exact H.
  - apply star_lazy_sound in H. exact H.
Qed.

Lemma m_complete r : forall k w rest,
  matches r w -> k rest <> None -> m r k (w ++ rest) <> None.
Proof.
  induction r as [|y|p|r1 IH1 r2 IH2|r1 IH1 r2 IH2|r1 IH1|p|p];
    intros k w rest Hw Hk; simpl in Hw; simpl m.
  - subst w. exact Hk.
  - destruct Hw as (c & -> & Hc). simpl. rewrite Hc. exact Hk.
  - destruct Hw as (c & -> & Hc). simpl. rewrite Hc. exact Hk.
  - destruct Hw as (u & v & -> & Hu & Hv). rewrite <- app_assoc.
    apply IH1; [exact Hu|]. apply IH2; assumption.
  - destruct Hw as [Hw|Hw].
    + specialize (IH1 k w rest Hw Hk).
      destruct (m r1 k (w ++ rest)); [discriminate | contradiction].
    + destruct (m r1 k (w ++ rest)); [discriminate|]. apply IH2; assumption.
  - destruct Hw as [->|Hw].
    + simpl. destruct (m r1 k rest); [discriminate | exact Hk].
    + specialize (IH1 k w rest Hw Hk).
      destruct (m r1 k (w ++ rest)); [discriminate | contradiction].
  - apply star_greedy_complete; assumption.
  - apply star_lazy_complete; assumption.
Qed.

(** No way to split the text into a word of the pattern and an accepted
    rest: the matcher fails. *)
Lemma m_none r k s :
  (forall w rest, s = w ++ rest -> matches r w -> k rest = None) ->
  m r k s = None.
Proof.
  intros H. destruct (m r k s) as [x|] eqn:E; [|reflexivity].
  destruct (m_sound r k s x E) as (w & rest & Es & Hw & Hk).
  rewrite (H w rest Es Hw) in Hk. discriminate.
Qed.

(** The word of the pattern at the head of the text is unique: the
    matcher hands exactly the rest to its continuation. *)
Lemma m_unique r k w0 rest0 :
  matches r w0 ->
  (forall w rest, w0 ++ rest0 = w ++ rest -> matches r w -> rest = rest0) ->
  m r k (w0 ++ rest0) = k rest0.
Proof.
  intros Hw0 Huniq. destruct (m r k (w0 ++ rest0)) as [x|] eqn:E.
  - destruct (m_sound r k _ x E) as (w & rest & Es & Hw & Hk).
    rewrite (Huniq w rest Es Hw) in Hk. congruence.
  - destruct (k rest0) eqn:Hk; [|reflexivity].
    exfalso. apply (m_complete r k w0 rest0 Hw0); [congruence | exact E].
Qed.

(** ** Words of the patterns *)

Lemma ci_eq_not_letter x c :
  is_upper_ascii x || is_lower_ascii x = false ->
  ci_eq x c = true -> c = x.
Proof.
  intros Hx H. unfold ci_eq in H. rewrite Hx in H.
  apply N.eqb_eq in H. exact H.
Qed.

Lemma ci_eq_LT c : ci_eq LT c = true -> c = LT.
Proof. apply ci_eq_not_letter. reflexivity. Qed.

Lemma matches_seqs_app l1 : forall l2 w,
  matches (seqs (l1 ++ l2)) w <->
  exists u v, w = u ++ v /\ matches (seqs l1) u /\ matches (seqs l2) v.
Proof.
  induction l1 as [|r l1 IH]; intros l2 w; simpl.
  - split.
    + intros H. exists [], w. auto.
    + intros (u & v & -> & -> & H). exact H.
  - split.
    + intros (u & v & -> & Hu & Hv). apply IH in Hv.
      destruct Hv as (v1 & v2 & -> & Hv1 & Hv2).
      exists (u ++ v1), v2. rewrite app_assoc. split; [reflexivity|].
      split; [|exact Hv2]. exists u, v1. auto.
    + intros (u & v & -> & (u1 & u2 & -> & Hu1 & Hu2) & Hv).
      exists u1, (u2 ++ v). rewrite app_assoc. split; [reflexivity|].
      split; [exact Hu1|]. apply IH. exists u2, v. auto.
Qed.

Lemma m_ext r : forall k1 k2 s,
  (forall s', k1 s' = k2 s') -> m r k1 s = m r k2 s.
Proof.
  induction r as [|y|p|r1 IH1 r2 IH2|r1 IH1 r2 IH2|r1 IH1|p|p];
    intros k1 k2 s H; simpl.
  - apply H.
  - destruct s as [|c s]; [reflexivity|]. destruct (ci_eq y c); auto.
  - destruct s as [|c s]; [reflexivity|]. destruct (p c); auto.
  - apply IH1. intros s'. apply IH2. exact H.
  - rewrite (IH1 k1 k2 s H), (IH2 k1 k2 s H). reflexivity.
  - rewrite (IH1 k1 k2 s H), (H s). reflexivity.
  - induction s as [|c s IHs]; simpl; [apply H|].
    rewrite IHs, (H (c :: s)). reflexivity.
  - induction s as [|c s IHs]; simpl.
    + rewrite (H []). reflexivity.
    + rewrite IHs, (H (c :: s)). reflexivity.
Qed.

Lemma m_seqs_app l1 : forall l2 k s,
  m (seqs (l1 ++ l2)) k s = m (seqs l1) (m (seqs l2) k) s.
Proof.
  induction l1 as [|r l1 IH]; intros l2 k s; simpl; [reflexivity|].
  apply m_ext. intros s'. apply IH.
Qed.

(** A word of a literal has the literal's length and agrees with it up to
    case. *)
Lemma matches_ilit l : forall w,
  matches (ilit_text l) w <-> Forall2 (fun x c => ci_eq x c = true) l w.
Proof.
  induction l as [|x l IH]; intros w; simpl.
  - split; [intros ->; constructor | intros H; inversion H; reflexivity].
  - split.
    + intros (u & v & -> & (c & -> & Hc) & Hv). simpl.
      constructor; [exact Hc | apply IH; exact Hv].
    + intros H. inversion H as [|? c ? v Hc Hv]; subst.
      exists [c], v. split; [reflexivity|]. split; [exists c; auto | apply IH; exact Hv].
Qed.

Lemma matches_lead u : matches lead u -> forallb is_space u = true.
Proof.
  unfold lead, ws. simpl. intros (a & b & -> & Ha & Hb).
  rewrite forallb_app, Hb, andb_true_r.
  destruct Ha as [->|(c & -> & Hc)]; [reflexivity|].
  simpl. unfold is_nl in Hc. apply N.eqb_eq in Hc. subst c. reflexivity.
Qed.

(** ** Tags opening in a text *)

Lemma has_open_app x u v :
  has_open x (u ++ v) = has_open x u || (ends_lt u && head_is x v) || has_open x v.
Proof.
  induction u as [|a u IH]; simpl.
  - reflexivity.
  - rewrite IH. destruct u as [|b u].
    + simpl. unfold ends_lt. simpl.
      destruct (a =? LT)%N; simpl; [|reflexivity].
      destruct (head_is x v); reflexivity.
    + replace (ends_lt (a :: b :: u)) with (ends_lt (b :: u)) by reflexivity.
      simpl. destruct ((a =? LT)%N && ci_eq x b); simpl; reflexivity.
Qed.

Lemma has_open_prefix x u v : has_open x u = true -> has_open x (u ++ v) = true.
Proof. intros H. rewrite has_open_app, H. reflexivity. Qed.

Lemma has_open_suffix x u v : has_open x v = true -> has_open x (u ++ v) = true.
Proof. intros H. rewrite has_open_app, H. apply orb_true_r. Qed.

Lemma no_lt_no_open x s : ~ In LT s -> has_open x s = false.
Proof.
  induction s as [|a s IH]; intros H; simpl; [reflexivity|].
  rewrite IH by (intros Hin; apply H; right; exact Hin).
  destruct (N.eqb_spec a LT) as [->|]; [exfalso; apply H; left; reflexivity|].
  reflexivity.
Qed.

Lemma no_lt_ends s : ~ In LT s -> ends_lt s = false.
Proof.
  intros H. unfold ends_lt. apply N.eqb_neq. intros E.
  destruct s as [|a s] using rev_ind; [discriminate|].
  rewrite last_last in E. subst a. apply H. apply in_or_app. right. left. reflexivity.
Qed.

(** A pattern each of whose words opens a tag in [x] finds nothing to
    replace in a text where no such tag opens. *)
Lemma sub_no_open rx x s :
  (forall w, matches rx w -> has_open x w = true) ->
  has_open x s = false ->
  sub rx [] s = s.
Proof.
  intros Hrx Hs.
  assert (E : sub rx [] (s ++ []) = s ++ sub rx [] []).
  { apply sub_prefix. intros u v Es Hv. apply m_none.
    intros w rest Ew Hw. exfalso.
    assert (H1 : has_open x (v ++ []) = true)
      by (rewrite Ew; apply has_open_prefix, Hrx, Hw).
    rewrite app_nil_r in H1.
    rewrite Es, (has_open_suffix x u v H1) in Hs. discriminate. }
  rewrite app_nil_r in E. rewrite E. unfold sub. simpl.
  destruct (match_at rx []); apply app_nil_r.
Qed.

(** ** Splitting a text at a delimiter *)

Lemma span_unique (p : char -> bool) u1 : forall u2 c1 c2 r1 r2,
  forallb p u1 = true -> forallb p u2 = true ->
  p c1 = false -> p c2 = false ->
  u1 ++ c1 :: r1 = u2 ++ c2 :: r2 ->
  u1 = u2 /\ c1 = c2 /\ r1 = r2.
Proof.
  induction u1 as [|a u1 IH]; intros [|b u2] c1 c2 r1 r2 H1 H2 Hc1 Hc2 E;
    simpl in *.
  - inversion E. auto.
  - inversion E; subst. apply andb_true_iff in H2. destruct H2 as [Hb _].
    congruence.
  - inversion E; subst. apply andb_true_iff in H1. destruct H1 as [Ha _].
    congruence.
  - inversion E; subst. apply andb_true_iff in H1. apply andb_true_iff in H2.
    destruct H1 as [_ H1], H2 as [_ H2].
    destruct (IH u2 c1 c2 r1 r2 H1 H2 Hc1 Hc2 H3) as (-> & -> & ->). auto.
Qed.

Lemma forallb_false_split (p : char -> bool) v :
  forallb p v = false ->
  exists v1 c v2, v = v1 ++ c :: v2 /\ forallb p v1 = true /\ p c = false.
Proof.
  induction v as [|a v IH]; simpl; [discriminate|].
  destruct (p a) eqn:Ha; simpl; intros H.
  - destruct (IH H) as (v1 & c & v2 & -> & H1 & Hc).
    exists (a :: v1), c, v2. simpl. rewrite Ha. auto.
  - exists [], a, v. auto.
Qed.

Lemma count_lt_app u v : count_lt (u ++ v) = count_lt u + count_lt v.
Proof. apply count_occ_app. Qed.

Lemma count_lt_cons_LT v : count_lt (LT :: v) = S (count_lt v).
Proof. unfold count_lt. apply count_occ_cons_eq. reflexivity. Qed.

Lemma count_lt_zero v : count_lt v = 0 <-> ~ In LT v.
Proof. unfold count_lt. symmetry. apply count_occ_not_In. Qed.

Lemma app_eq_length (u1 u2 v1 v2 : text) :
  u1 ++ v1 = u2 ++ v2 -> List.length u1 = List.length u2 -> v1 = v2.
Proof.
  revert u2. induction u1 as [|a u1 IH]; intros [|b u2] E L; simpl in *;
    try discriminate; [exact E|].
  inversion E. apply (IH u2); [assumption | lia].
Qed.

Lemma min_count_le r : forall w, matches r w -> min_count r <= count_lt w.
Proof.
  induction r as [|y|p|r1 IH1 r2 IH2|r1 IH1 r2 IH2|r1 IH1|p|p];
    intros w H; cbn [min_count]; try apply Nat.le_0_l.
  - destruct H as (c & -> & Hc).
    destruct (N.eqb_spec y LT) as [->|]; [|apply Nat.le_0_l].
    apply ci_eq_LT in Hc. subst c. rewrite count_lt_cons_LT. lia.
  - destruct H as (u & v & -> & Hu & Hv). rewrite count_lt_app.
    specialize (IH1 u Hu). specialize (IH2 v Hv). lia.
  - destruct H as [H|H]; [specialize (IH1 w H) | specialize (IH2 w H)]; lia.
Qed.

(** ** The words of an element pattern *)

Lemma open_word x t l w :
  matches (seqs (ilit_text (LT :: x :: t) :: l)) w ->
  exists c w', w = LT :: c :: w' /\ ci_eq x c = true.
Proof.
  simpl. intros (u & v & -> & (u1 & u2 & -> & (c1 & -> & H1)
                               & (u3 & u4 & -> & (c2 & -> & H2) & _)) & _).
  apply ci_eq_LT in H1. subst c1. exists c2, (u4 ++ v). simpl. auto.
Qed.

Lemma lead_open_word x t l w :
  matches (seqs (lead :: ilit_text (LT :: x :: t) :: l)) w ->
  exists u c w', w = u ++ LT :: c :: w'
                 /\ forallb is_space u = true /\ ci_eq x c = true.
Proof.
  intros (u & v & -> & Hu & Hv). apply matches_lead in Hu.
  apply open_word in Hv. destruct Hv as (c & w' & -> & Hc).
  exists u, c, w'. auto.
Qed.

Lemma open_has_open x u c w' :
  ci_eq x c = true -> has_open x (u ++ LT :: c :: w') = true.
Proof.
  intros Hc. apply has_open_suffix. simpl. rewrite Hc. reflexivity.
Qed.

Lemma is_space_LT : is_space LT = false.
Proof. reflexivity. Qed.

Lemma last_app_ne (u v : text) d : v <> [] -> last (u ++ v) d = last v d.
Proof.
  intros Hv. destruct v as [|a v] using rev_ind; [congruence|].
  rewrite app_assoc, !last_last. reflexivity.
Qed.

Lemma last_In (v : text) d : v <> [] -> In (last v d) v.
Proof.
  intros Hv. destruct v as [|a v] using rev_ind; [congruence|].
  rewrite last_last. apply in_or_app. right. left. reflexivity.
Qed.

Lemma suffix_not_blank p0 u v :
  is_space (last p0 0%N) = false -> p0 = u ++ v -> v <> [] ->
  forallb is_space v = false.
Proof.
  intros H -> Hv. rewrite last_app_ne in H by exact Hv.
  destruct (forallb is_space v) eqn:E; [|reflexivity].
  rewrite forallb_forall in E. rewrite E in H; [discriminate|].
  destruct v as [|a v] using rev_ind; [congruence|].
  rewrite last_last. apply in_or_app. right. left. reflexivity.
Qed.

Lemma star_space_run u q :
  forallb is_space u = true -> is_space (hd 0%N q) = false ->
  star_greedy is_space (fun rest => Some rest) (u ++ q) = Some q.
Proof.
  intros Hu Hq. induction u as [|a u IH]; simpl.
  - destruct q as [|c q]; [reflexivity|]. simpl in *. rewrite Hq. reflexivity.
  - simpl in Hu. apply andb_true_iff in Hu. destruct Hu as [Ha Hu].
    rewrite Ha, (IH Hu). reflexivity.
Qed.

Lemma spaces_no_lt u : forallb is_space u = true -> ~ In LT u.
Proof.
  intros H Hin. rewrite forallb_forall in H. specialize (H LT Hin). discriminate.
Qed.

(** The words of an element pattern: white space, then the tag. *)
Lemma rx_word x t l' tail w :
  matches (seqs ((lead :: (ilit_text (LT :: x :: t) :: l') ++ tail) ++ [ws])) w ->
  exists u c w', w = u ++ LT :: c :: w'
                 /\ forallb is_space u = true /\ ci_eq x c = true.
Proof.
  intros H. apply matches_seqs_app in H.
  destruct H as (a & b & -> & Ha & _).
  change (lead :: (ilit_text (LT :: x :: t) :: l') ++ tail)
    with (lead :: ilit_text (LT :: x :: t) :: (l' ++ tail)) in Ha.
  apply lead_open_word in Ha. destruct Ha as (u & c & w' & -> & Hu & Hc).
  exists u, c, (w' ++ b). rewrite <- app_assoc. simpl. auto.
Qed.

(** ** The closing tags of the patterns *)

Lemma transform_unfold t :
  transform t =
  collapse (sub rx_h [] (sub rx_section [] (sub rx_a [] (sub rx_li [] t)))).
Proof. reflexivity. Qed.

(** A text the pattern matches to its end is a word of the pattern. *)
Lemma full_match r s : match_at r s = Some [] -> matches r s.
Proof.
  intros H. destruct (m_sound r _ s [] H) as (w & rest & -> & Hw & Hk).
  inversion Hk; subst. rewrite app_nil_r. exact Hw.
Qed.

Ltac ci_tail :=
  repeat match goal with
  | H : Forall2 _ (_ :: _) _ |- _ => inversion H; clear H; subst
  | H : Forall2 _ [] _ |- _ => inversion H; clear H; subst
  end.

Lemma tail_a w : matches (seqs [ilit "</a>"]) w ->
  exists w', w = LT :: SLASH :: w' /\ ~ In LT w' /\ List.length w' = 2.
Proof.
  intros (u & v & -> & Hu & ->). apply matches_ilit in Hu.
  change (str "</a>") with [LT; SLASH; 97%N; GT] in Hu. ci_tail.
  rewrite app_nil_r.
  match goal with H : ci_eq LT _ = true |- _ => apply ci_eq_LT in H; subst end.
  match goal with H : ci_eq SLASH _ = true |- _ =>
    apply ci_eq_not_letter in H; [subst | reflexivity] end.
  match goal with H : ci_eq GT _ = true |- _ =>
    apply ci_eq_not_letter in H; [subst | reflexivity] end.
  eexists. split; [reflexivity|]. split; [|reflexivity].
  intros [E|[E|[]]]; [|discriminate E].
  subst. match goal with H : ci_eq 97%N LT = true |- _ => discriminate H end.
Qed.

Lemma tail_li w : matches (seqs [ilit "</li>"]) w ->
  exists w', w = LT :: SLASH :: w' /\ ~ In LT w' /\ List.length w' = 3.
Proof.
  intros (u & v & -> & Hu & ->). apply matches_ilit in Hu.
  change (str "</li>") with [LT; SLASH; 108%N; 105%N; GT] in Hu. ci_tail.
  rewrite app_nil_r.
  match goal with H : ci_eq LT _ = true |- _ => apply ci_eq_LT in H; subst end.
  match goal with H : ci_eq SLASH _ = true |- _ =>
    apply ci_eq_not_letter in H; [subst | reflexivity] end.
  match goal with H : ci_eq GT _ = true |- _ =>
    apply ci_eq_not_letter in H; [subst | reflexivity] end.
  eexists. split; [reflexivity|]. split; [|reflexivity].
  intros [E|[E|[E|[]]]]; try discriminate E; subst;
    match goal with H : ci_eq _ LT = true |- _ => discriminate H end.
Qed.

Lemma tail_h w :
  matches (seqs [ilit "</h"; Cls digit_1_6; ilit ">"]) w ->
  exists w', w = LT :: SLASH :: w' /\ ~ In LT w' /\ List.length w' = 3.
Proof.
  intros (u & v & -> & Hu & (d & v' & -> & (c & -> & Hc) & (g & e & -> & Hg & ->))).
  apply matches_ilit in Hu, Hg.
  change (str "</h") with [LT; SLASH; 104%N] in Hu.
  change (str ">") with [GT] in Hg. ci_tail.
  match goal with H : ci_eq LT _ = true |- _ => apply ci_eq_LT in H; subst end.
  match goal with H : ci_eq SLASH _ = true |- _ =>
    apply ci_eq_not_letter in H; [subst | reflexivity] end.
  match goal with H : ci_eq GT _ = true |- _ =>
    apply ci_eq_not_letter in H; [subst | reflexivity] end.
  simpl. eexists. split; [reflexivity|]. split; [|reflexivity].
  intros [E|[E|[E|[]]]]; try discriminate E; subst;
    [match goal with H : ci_eq _ LT = true |- _ => discriminate H end|].
  discriminate Hc.
Qed.

(** ** The scan of [re.sub], case by case *)

(** An induction principle for [sub]: the scan copies a character, or
    replaces an empty match and copies, or replaces a non-empty word of
    the pattern and resumes behind it. *)
Lemma sub_scan_ind r repl (P : text -> text -> Prop) :
  P [] [] ->
  (matches r [] -> P [] repl) ->
  (forall c s o, P s o -> P (c :: s) (c :: o)) ->
  (forall c s o, matches r [] -> P s o -> P (c :: s) (repl ++ c :: o)) ->
  (forall c w rest o, matches r (c :: w) -> P rest o ->
     P (c :: w ++ rest) (repl ++ o)) ->
  forall s, P s (sub r repl s).
Proof.
  intros H0 H0' Hcopy Hempty Hword s.
  remember (List.length s) as n eqn:En. revert s En.
  induction n as [n IH] using lt_wf_ind. intros s En.
  destruct s as [|c s].
  - unfold sub. simpl. destruct (match_at r []) as [x|] eqn:E; [|exact H0].
    apply H0'. destruct (m_sound r _ [] x E) as (w & rest & Es & Hw & _).
    symmetry in Es. apply app_eq_nil in Es. destruct Es as [-> _]. exact Hw.
  - unfold sub. rewrite sub_aux_cons.
    destruct (match_at r (c :: s)) as [x|] eqn:E.
    + destruct (m_sound r _ (c :: s) x E) as (w & rest & Es & Hw & Hk).
      inversion Hk; subst x. clear Hk.
      destruct w as [|c' w].
      * simpl in Es. subst rest. rewrite Nat.sub_diag.
        apply Hempty; [exact Hw|].
        apply (IH (List.length s)); [subst n; simpl; lia | reflexivity].
      * simpl in Es. inversion Es; subst c' s.
        assert (L : List.length (c :: w ++ rest) - List.length rest
                    = S (List.length w)).
        { change (List.length (c :: w ++ rest))
            with (S (List.length (w ++ rest))).
          rewrite length_app. lia. }
        rewrite L. rewrite sub_aux_skip by (rewrite length_app; lia).
        rewrite skipn_app, skipn_all, Nat.sub_diag. simpl.
        apply Hword; [exact Hw|].
        apply (IH (List.length rest)); [|reflexivity].
        subst n. simpl. rewrite length_app. lia.
    + apply Hcopy.
      apply (IH (List.length s)); [subst n; simpl; lia | reflexivity].
Qed.

Lemma subseq_refl a : subseq a a.
Proof. induction a; constructor; assumption. Qed.

Lemma subseq_nil_l b : subseq [] b.
Proof. induction b; constructor; assumption. Qed.

Lemma subseq_app a b c d : subseq a b -> subseq c d -> subseq (a ++ c) (b ++ d).
Proof.
  intros H1 H2. induction H1; simpl; [exact H2 | |]; constructor; assumption.
Qed.

Lemma subseq_trans a b : subseq a b -> forall c, subseq b c -> subseq a c.
Proof.
  intros H c Hc. revert a H. induction Hc; intros a' H.
  - exact H.
  - constructor. apply IHHc. exact H.
  - inversion H; subst.
    + apply subseq_skip. apply IHHc. assumption.
    + apply subseq_keep. apply IHHc. assumption.
Qed.

Lemma subseq_length a b : subseq a b -> List.length a <= List.length b.
Proof. induction 1; simpl; lia. Qed.

(** When the replacement can be read off every word it replaces, the
    result of [sub] can be read off the text. *)
Lemma sub_subseq r repl :
  (forall w, matches r w -> subseq repl w) ->
  forall s, subseq (sub r repl s) s.
Proof.
  intros H s0.
  apply (sub_scan_ind r repl (fun s o => subseq o s)).
  - constructor.
  - intros H0. apply (H [] H0).
  - intros c s o Ho. apply subseq_keep. exact Ho.
  - intros c s o H0 Ho. apply (subseq_app repl [] (c :: o) (c :: s)).
    + apply (H [] H0).
    + apply subseq_keep. exact Ho.
  - intros c w rest o Hw Ho.
    apply (subseq_app repl (c :: w) o rest); [apply (H _ Hw) | exact Ho].
Qed.

Lemma nl3_word w : matches rx_nl3 w ->
  exists j, w = repeat NL (3 + j).
Proof.
  unfold rx_nl3. simpl.
  intros (u1 & v1 & -> & (c1 & -> & H1) & (u2 & v2 & -> & (c2 & -> & H2)
          & (u3 & v3 & -> & (c3 & -> & H3) & (u4 & v4 & -> & H4 & ->)))).
  unfold is_nl in H1, H2, H3. apply N.eqb_eq in H1, H2, H3. subst.
  exists (List.length u4). simpl. rewrite app_nil_r. do 3 f_equal.
  induction u4 as [|a u IH]; [reflexivity|]. simpl in *.
  apply andb_true_iff in H4. destruct H4 as [Ha Hu].
  unfold is_nl in Ha. apply N.eqb_eq in Ha. subst a. f_equal. apply IH. exact Hu.
Qed.

Lemma collapse_subseq s : subseq (collapse s) s.
Proof.
  apply sub_subseq. intros w Hw. destruct (nl3_word w Hw) as (j & ->).
  simpl. apply subseq_keep, subseq_keep, subseq_nil_l.
Qed.

Lemma rules_subseq ps : (forall p, In p ps -> snd p = []) ->
  forall t, subseq (apply_rules ps t) t.
Proof.
  unfold apply_rules. induction ps as [|p ps IH]; intros Hp t; simpl.
  - apply subseq_refl.
  - apply (subseq_trans _ (sub (fst p) (snd p) t)).
    + apply IH. intros q Hq. apply Hp. right. exact Hq.
    + apply sub_subseq. intros w _. rewrite (Hp p) by (left; reflexivity).
      apply subseq_nil_l.
Qed.

(** ** The transformation only deletes *)

(** X1: the text computed for a file is the text read with some characters
    left out: the four rules and the blank-line collapse insert nothing,
    change no character and keep the order; in particular the text never
    gets longer. *)
Theorem transform_only_deletes t :
  subseq (transform t) t /\ List.length (transform t) <= List.length t.
Proof.
  assert (H : subseq (transform t) t).
  { unfold transform.
    apply (subseq_trans _ (apply_rules patterns t)); [apply collapse_subseq|].
    apply rules_subseq. intros p Hp. simpl in Hp.
    destruct Hp as [<-|[<-|[<-|[<-|[]]]]]; reflexivity. }
  split; [exact H | apply subseq_length; exact H].
Qed.

(** ** Texts the rules leave as they are *)

(** A pattern whose words all have a property that passes to every text
    around them replaces nothing in a text without the property. *)
Lemma sub_no_factor rx (Q : text -> Prop) :
  (forall u v w, Q v -> Q (u ++ v ++ w)) ->
  (forall w, matches rx w -> Q w) ->
  forall s, ~ Q s -> sub rx [] s = s.
Proof.
  intros Hext Hrx s0.
  apply (sub_scan_ind rx [] (fun s o => ~ Q s -> o = s)).
  - reflexivity.
  - intros H0 Hn. exfalso. apply Hn. apply (Hrx [] H0).
  - intros c s o IH Hn. f_equal. apply IH. intros Hq. apply Hn.
    specialize (Hext [c] s [] Hq). rewrite app_nil_r in Hext. exact Hext.
  - intros c s o H0 _ Hn. exfalso. apply Hn.
    apply (Hext [] [] (c :: s)). apply (Hrx [] H0).
  - intros c w rest o Hw _ Hn. exfalso. apply Hn.
    apply (Hext [] (c :: w) rest). apply (Hrx _ Hw).
Qed.

(** A word of a sequence holds a word of each of its members. *)
Lemma seqs_factor l : forall r w,
  In r l -> matches (seqs l) w ->
  exists u v z, w = u ++ v ++ z /\ matches r v.
Proof.
  induction l as [|r0 l IH]; intros r w Hin Hw; [contradiction|].
  simpl in Hw. destruct Hw as (a & b & -> & Ha & Hb).
  destruct Hin as [->|Hin].
  - exists [], a, b. auto.
  - destruct (IH r b Hin Hb) as (u & v & z & -> & Hv).
    exists (a ++ u), v, z. rewrite <- app_assoc. auto.
Qed.

Lemma In_ext (c : char) u v w : In c v -> In c (u ++ v ++ w).
Proof. intros H. apply in_or_app. right. apply in_or_app. left. exact H. Qed.

Ltac in_list := simpl; repeat (first [left; reflexivity | right]).

Lemma quote_in_word l w :
  In (Cls is_quote) l -> matches (seqs l) w -> In QUOTE w.
Proof.
  intros Hin Hw. destruct (seqs_factor l _ w Hin Hw) as (u & v & z & -> & Hv).
  apply In_ext. destruct Hv as (c & -> & Hc).
  unfold is_quote in Hc. apply N.eqb_eq in Hc. subst c. left. reflexivity.
Qed.

Lemma sub_no_quote l s :
  In (Cls is_quote) l -> ~ In QUOTE s -> sub (seqs l) [] s = s.
Proof.
  intros Hin. apply (sub_no_factor (seqs l) (In QUOTE)).
  - intros u v w. apply In_ext.
  - intros w. apply quote_in_word. exact Hin.
Qed.

Lemma prefix_ci_word l : forall b z,
  Forall2 (fun x c => ci_eq x c = true) l b -> prefix_ci l (b ++ z) = true.
Proof.
  induction l as [|x l IH]; intros b z H; [reflexivity|].
  inversion H as [|? c ? b' Hc Hb]; subst. simpl. rewrite Hc. apply IH. exact Hb.
Qed.

Lemma prefix_ci_Forall2 l : forall s, prefix_ci l s = true ->
  exists b z, s = b ++ z /\ Forall2 (fun x c => ci_eq x c = true) l b.
Proof.
  induction l as [|x l IH]; intros s H.
  - exists [], s. split; [reflexivity | constructor].
  - destruct s as [|c s]; [discriminate|]. simpl in H.
    apply andb_true_iff in H. destruct H as [Hc H].
    destruct (IH s H) as (b & z & -> & Hb).
    exists (c :: b), z. split; [reflexivity | constructor; assumption].
Qed.

Lemma occurs_ci_suffix l u : forall v,
  occurs_ci l v = true -> occurs_ci l (u ++ v) = true.
Proof.
  induction u as [|a u IH]; intros v H; [exact H|].
  simpl. rewrite (IH v H). apply orb_true_r.
Qed.

Lemma occurs_ci_prefix l v w :
  occurs_ci l v = true -> occurs_ci l (v ++ w) = true.
Proof.
  induction v as [|a v IH]; intros H.
  - simpl in H. rewrite orb_false_r in H. destruct l; [|discriminate].
    destruct w; reflexivity.
  - simpl in H. apply orb_true_iff in H. destruct H as [H|H].
    + destruct (prefix_ci_Forall2 l _ H) as (b & z & E & Hb).
      change ((a :: v) ++ w) with (a :: v ++ w).
      change (a :: v ++ w) with ((a :: v) ++ w). rewrite E, <- app_assoc.
      destruct (b ++ z ++ w) eqn:E2; simpl;
        rewrite <- E2, (prefix_ci_word l b (z ++ w) Hb); reflexivity.
    + change ((a :: v) ++ w) with (a :: (v ++ w)).
      simpl. rewrite (IH H). apply orb_true_r.
Qed.

Lemma occurs_ci_ext l u v w :
  occurs_ci l v = true -> occurs_ci l (u ++ v ++ w) = true.
Proof. intros H. apply occurs_ci_suffix, occurs_ci_prefix, H. Qed.

Lemma occurs_ci_word l b :
  Forall2 (fun x c => ci_eq x c = true) l b -> occurs_ci l b = true.
Proof.
  intros H. pose proof (prefix_ci_word l b [] H) as E. rewrite app_nil_r in E.
  destruct b; simpl in *; rewrite E; reflexivity.
Qed.

Lemma ci_eq_B c : ci_eq 66%N c = ci_eq 98%N c.
Proof. reflexivity. Qed.

Lemma blog_in_word l w :
  In (ilit "blog") l \/ In (ilit "Blog") l ->
  matches (seqs l) w -> occurs_ci (str "blog") w = true.
Proof.
  intros [Hin|Hin] Hw;
    destruct (seqs_factor l _ w Hin Hw) as (u & v & z & -> & Hv);
    apply occurs_ci_ext, occurs_ci_word; apply matches_ilit in Hv.
  - exact Hv.
  - change (str "Blog") with [66%N; 108%N; 111%N; 103%N] in Hv.
    change (str "blog") with [98%N; 108%N; 111%N; 103%N].
    inversion Hv as [|? c ? v' Hc Hv']; subst.
    constructor; [rewrite <- ci_eq_B; exact Hc | exact Hv'].
Qed.

Lemma sub_no_blog l s :
  In (ilit "blog") l \/ In (ilit "Blog") l ->
  occurs_ci (str "blog") s = false -> sub (seqs l) [] s = s.
Proof.
  intros Hin Hs.
  apply (sub_no_factor (seqs l) (fun s => occurs_ci (str "blog") s = true)).
  - intros u v w. apply occurs_ci_ext.
  - intros w. apply blog_in_word. exact Hin.
  - rewrite Hs. discriminate.
Qed.

(** X2: a text in which the letters [blog] do not occur in a row, in any
    mix of cases, is left as it is by the four rules; only the blank-line
    collapse applies to it. *)
Theorem rules_need_blog t :
  occurs_ci (str "blog") t = false ->
  apply_rules patterns t = t /\ transform t = collapse t.
Proof.
  intros H.
  assert (E : apply_rules patterns t = t).
  { unfold apply_rules, patterns. simpl fold_left.
    unfold rx_li at 1. rewrite (sub_no_blog _ t) by (exact H || (left; in_list)).
    unfold rx_a at 1. rewrite (sub_no_blog _ t) by (exact H || (left; in_list)).
    unfold rx_section at 1.
    rewrite (sub_no_blog _ t) by (exact H || (left; in_list)).
    unfold rx_h. apply sub_no_blog; [right; in_list | exact H]. }
  split; [exact E | unfold transform; rewrite E; reflexivity].
Qed.

Lemma rules_need_blog_witness :
  apply_rules patterns (str "<h2>Weblo g</h2>" ++ repeat NL 4) =
    str "<h2>Weblo g</h2>" ++ repeat NL 4
  /\ transform (str "<h2>Weblo g</h2>" ++ repeat NL 4) =
     collapse (str "<h2>Weblo g</h2>" ++ repeat NL 4).
Proof. apply rules_need_blog. reflexivity. Defined.

(** X3: the list-item, anchor and section rules ask for a double quote
    around the attribute value: a text without a double quote, such as one
    whose attributes are written with single quotes, is changed by the
    heading rule and the collapse alone. *)
Theorem rules_need_double_quote t :
  ~ In QUOTE t ->
  apply_rules patterns t = sub rx_h [] t
  /\ transform t = collapse (sub rx_h [] t).
Proof.
  intros H.
  assert (E : apply_rules patterns t = sub rx_h [] t).
  { unfold apply_rules, patterns. simpl fold_left.
    unfold rx_li at 1. rewrite (sub_no_quote _ t) by (exact H || in_list).
    unfold rx_a at 1. rewrite (sub_no_quote _ t) by (exact H || in_list).
    unfold rx_section at 1. rewrite (sub_no_quote _ t) by (exact H || in_list).
    reflexivity. }
  split; [exact E | unfold transform; rewrite E; reflexivity].
Qed.

Lemma rules_need_double_quote_witness :
  apply_rules patterns (str "<section id='blog'><a href='/blog'>Blog</a></section>")
  = sub rx_h [] (str "<section id='blog'><a href='/blog'>Blog</a></section>")
  /\ transform (str "<section id='blog'><a href='/blog'>Blog</a></section>")
     = collapse (sub rx_h [] (str "<section id='blog'><a href='/blog'>Blog</a></section>")).
Proof.
  apply rules_need_double_quote. vm_compute. intuition discriminate.
Defined.

(** ** The collapse, run by run *)

(** A text is a newline-free part, a run of newlines and a rest that does
    not start with a newline and is shorter than the text. *)
Lemma nl_split t : t <> [] ->
  exists a k b, t = a ++ repeat NL k ++ b /\ ~ In NL a /\ hd 0%N b <> NL
                /\ List.length b < List.length t.
Proof.
  induction t as [|c t IH]; intros Ht; [congruence|].
  destruct t as [|c' t'].
  - destruct (N.eq_dec c NL) as [->|Hc].
    + exists [], 1, []. simpl.
      split; [reflexivity|]. split; [tauto|]. split; [discriminate | lia].
    + exists [c], 0, []. simpl.
      split; [reflexivity|]. split; [intros [E|[]]; congruence|].
      split; [discriminate | lia].
  - destruct IH as (a & k & b & E & Ha & Hb & L); [discriminate|].
    simpl in L.
    destruct (N.eq_dec c NL) as [->|Hc].
    + destruct a as [|x a].
      * exists [], (S k), b. simpl in E. rewrite E. simpl.
        split; [reflexivity|]. split; [tauto|]. split; [exact Hb|].
        rewrite <- E. simpl. lia.
      * exists [], 1, (c' :: t'). simpl.
        split; [reflexivity|]. split; [tauto|]. split; [|lia].
        simpl in E. inversion E; subst. intros ->. apply Ha. left. reflexivity.
    + exists (c :: a), k, b. rewrite E. simpl.
      split; [reflexivity|].
      split; [intros [E'|Hin]; [congruence | exact (Ha Hin)]|].
      split; [exact Hb|]. rewrite <- E. simpl. lia.
Qed.

Lemma collapse_nil : collapse [] = [].
Proof. reflexivity. Qed.

Lemma collapse_hd b : hd 0%N b <> NL -> hd 0%N (collapse b) <> NL.
Proof.
  destruct b as [|c b]; intros H; [exact H|]. simpl in H.
  unfold collapse. rewrite sub_nomatch_cons by (apply match_nl3_other; exact H).
  exact H.
Qed.

(** The collapse of a text, run by run. *)
Lemma collapse_split a k b :
  ~ In NL a -> hd 0%N b <> NL ->
  collapse (a ++ repeat NL k ++ b) = a ++ repeat NL (Nat.min k 2) ++ collapse b.
Proof.
  intros Ha Hb. rewrite collapse_no_nl_prefix by exact Ha.
  rewrite collapse_run by exact Hb. reflexivity.
Qed.

Lemma text_length_ind (P : text -> Prop) :
  (forall t, (forall b, List.length b < List.length t -> P b) -> P t) ->
  forall t, P t.
Proof.
  intros H t. remember (List.length t) as n eqn:E. revert t E.
  induction n as [n IH] using lt_wf_ind. intros t E. apply H.
  intros b L. apply (IH (List.length b)); [lia | reflexivity].
Qed.

Lemma collapse_collapse t : collapse (collapse t) = collapse t.
Proof.
  induction t as [t IH] using text_length_ind.
  destruct t as [|c t']; [reflexivity|].
  destruct (nl_split (c :: t')) as (a & k & b & E & Ha & Hb & L); [discriminate|].
  rewrite E. rewrite (collapse_split a k b Ha Hb).
  rewrite (collapse_split a _ _ Ha (collapse_hd b Hb)).
  rewrite (IH b L). replace (Nat.min (Nat.min k 2) 2) with (Nat.min k 2) by lia.
  reflexivity.
Qed.

Lemma has_nl3_no_nl a s : ~ In NL a -> has_nl3 (a ++ s) = has_nl3 s.
Proof.
  induction a as [|x a IH]; intros Ha; [reflexivity|].
  change ((x :: a) ++ s) with (x :: a ++ s). cbn [has_nl3].
  rewrite IH by (intros Hin; apply Ha; right; exact Hin).
  assert (Hx : is_nl x = false).
  { apply is_nl_false. intros ->. apply Ha. left. reflexivity. }
  unfold starts_nl3. destruct (a ++ s) as [|y [|z u]]; try reflexivity.
  rewrite Hx. reflexivity.
Qed.

Lemma has_nl3_short_run j c :
  j <= 2 -> hd 0%N c <> NL -> has_nl3 (repeat NL j ++ c) = has_nl3 c.
Proof.
  intros Hj Hc. apply hd_not_nl in Hc.
  destruct j as [|[|[|j]]]; [| | |lia]; [reflexivity| |].
  - destruct c as [|x [|y c]]; try reflexivity.
    simpl. rewrite Hc. reflexivity.
  - destruct c as [|x c]; [reflexivity|].
    cbn [repeat app has_nl3 starts_nl3]. rewrite Hc.
    rewrite !andb_false_r.
    destruct c as [|y c]; rewrite ?andb_false_r; reflexivity.
Qed.

Lemma collapse_no_nl3 t : has_nl3 (collapse t) = false.
Proof.
  induction t as [t IH] using text_length_ind.
  destruct t as [|c t']; [reflexivity|].
  destruct (nl_split (c :: t')) as (a & k & b & E & Ha & Hb & L); [discriminate|].
  rewrite E, (collapse_split a k b Ha Hb).
  rewrite has_nl3_no_nl by exact Ha.
  rewrite has_nl3_short_run; [apply IH; exact L | lia | apply collapse_hd, Hb].
Qed.

(** X4: the text computed for a file holds no three newlines in a row,
    and collapsing its blank lines once more does not change it. *)
Theorem output_has_no_triple_newline t :
  has_nl3 (transform t) = false /\ collapse (transform t) = transform t.
Proof.
  unfold transform. split; [apply collapse_no_nl3 | apply collapse_collapse].
Qed.

(** ** A second application on a text that does not mention the blog *)

(** The collapse brings no literal together: a literal without a newline
    that occurs in the collapsed text occurs in the text. *)
Lemma collapse_occurs t :
  (forall l, (forall x, In x l -> ci_eq x NL = false) ->
     prefix_ci l (collapse t) = true -> prefix_ci l t = true)
  /\ (forall l, (forall x, In x l -> ci_eq x NL = false) ->
        occurs_ci l (collapse t) = true -> occurs_ci l t = true).
Proof.
  unfold collapse.
  apply (sub_scan_ind rx_nl3 [NL; NL] (fun s o =>
    (forall l, (forall x, In x l -> ci_eq x NL = false) ->
       prefix_ci l o = true -> prefix_ci l s = true)
    /\ (forall l, (forall x, In x l -> ci_eq x NL = false) ->
          occurs_ci l o = true -> occurs_ci l s = true))).
  - split; intros l _ H; exact H.
  - intros H0. destruct (nl3_word [] H0) as (j & E). discriminate E.
  - intros c s o [IHp IHo]. split; intros l Hl H.
    + destruct l as [|x l]; [reflexivity|]. simpl in *.
      apply andb_true_iff in H. destruct H as [Hc H]. rewrite Hc. simpl.
      apply IHp; [|exact H]. intros y Hy. apply Hl. right. exact Hy.
    + simpl in *. apply orb_true_iff in H. apply orb_true_iff.
      destruct H as [H|H]; [left | right; apply IHo; assumption].
      destruct l as [|x l]; [reflexivity|]. simpl in *.
      apply andb_true_iff in H. destruct H as [Hc H]. rewrite Hc. simpl.
      apply IHp; [|exact H]. intros y Hy. apply Hl. right. exact Hy.
  - intros c s o H0 _. destruct (nl3_word [] H0) as (j & E). discriminate E.
  - intros c w rest o Hw [IHp IHo].
    destruct (nl3_word _ Hw) as (j & E).
    split; intros l Hl H.
    + destruct l as [|x l]; [reflexivity|]. simpl in H.
      rewrite (Hl x) in H by (left; reflexivity). discriminate H.
    + destruct l as [|x l]; [reflexivity|].
      change ([NL; NL] ++ o) with (NL :: NL :: o) in H.
      cbn [occurs_ci prefix_ci] in H.
      rewrite (Hl x) in H by (left; reflexivity). simpl in H.
      change (c :: w ++ rest) with ((c :: w) ++ rest).
      apply occurs_ci_suffix. apply IHo; [exact Hl|].
      destruct o; exact H.
Qed.

Lemma apply_rules_no_blog t :
  occurs_ci (str "blog") t = false -> apply_rules patterns t = t.
Proof.
  intros H. unfold apply_rules, patterns. simpl fold_left.
  unfold rx_li at 1. rewrite (sub_no_blog _ t) by (exact H || (left; in_list)).
  unfold rx_a at 1. rewrite (sub_no_blog _ t) by (exact H || (left; in_list)).
  unfold rx_section at 1.
  rewrite (sub_no_blog _ t) by (exact H || (left; in_list)).
  unfold rx_h. apply sub_no_blog; [right; in_list | exact H].
Qed.

(** X5: on a text in which the letters [blog] do not occur in a row, the
    transformation is idempotent: applied to its own result it changes
    nothing. *)
Theorem transform_idempotent_without_blog t :
  occurs_ci (str "blog") t = false ->
  transform (transform t) = transform t.
Proof.
  intros H. unfold transform at 2 3. rewrite (apply_rules_no_blog t H).
  assert (H' : occurs_ci (str "blog") (collapse t) = false).
  { destruct (occurs_ci (str "blog") (collapse t)) eqn:E; [|reflexivity].
    destruct (collapse_occurs t) as [_ Ho].
    rewrite <- H. symmetry. apply Ho; [|exact E].
    intros x Hx. simpl in Hx.
    destruct Hx as [<-|[<-|[<-|[<-|[]]]]]; reflexivity. }
  unfold transform. rewrite (apply_rules_no_blog _ H').
  apply collapse_collapse.
Qed.

Lemma transform_idempotent_without_blog_witness :
  transform (transform (str "<p>News</p>" ++ repeat NL 5 ++ str "<p>More</p>"))
  = transform (str "<p>News</p>" ++ repeat NL 5 ++ str "<p>More</p>").
Proof. apply transform_idempotent_without_blog. reflexivity. Defined.

(** ** The directory after a run, and a second run *)

Lemma run_NoDup d st out :
  NoDup (map fst d) -> run d = Some (st, out) -> NoDup (map fst (fs st)).
Proof.
  intros Hnd H. destruct (first_loop_spec d Hnd) as (st1 & Hrun & _ & _ & Hn & _).
  unfold run in H. rewrite Hrun in H. inversion H; subst. clear H.
  unfold fixed_names. simpl fold_left.
  assert (Hnd1 : NoDup (map fst (fs st1))) by (rewrite Hn; exact Hnd).
  destruct (delete_if_present_spec st1 "blog.html" Hnd1) as (Hnd2 & _).
  destruct (delete_if_present_spec _ "blogs.html" Hnd2) as (Hnd3 & _).
  exact Hnd3.
Qed.

Lemma read_text_Some_In d n t : read_text d n = Some t -> In (n, t) d.
Proof.
  induction d as [|[n' t'] d IH]; simpl; [discriminate|].
  destruct (String.eqb n' n) eqn:E; intros H.
  - apply String.eqb_eq in E. inversion H; subst. left. reflexivity.
  - right. apply IH. exact H.
Qed.

(** X6: after a run, [blog.html] and [blogs.html] are gone, every other
    file matching [*.html] holds the transformed text of what it held, and
    every other file holds what it held: a file that does not match the
    glob is never rewritten. *)
Theorem final_directory d :
  NoDup (map fst d) ->
  exists st out, run d = Some (st, out)
    /\ forall q, read_text (fs st) q =
         if is_fixed q then None
         else if is_html q then option_map transform (read_text d q)
         else read_text d q.
Proof.
  intros Hnd. destruct (run_spec d Hnd) as (st & Hrun & _ & _ & Hr).
  exists st, (report (changed st)). split; [exact Hrun | exact Hr].
Qed.

Lemma final_directory_witness :
  exists st out, run dir_example = Some (st, out)
    /\ forall q, read_text (fs st) q =
         if is_fixed q then None
         else if is_html q then option_map transform (read_text dir_example q)
         else read_text dir_example q.
Proof. apply (final_directory dir_example). nodup_names. Defined.

(** X7: a second run on the directory the first run leaves deletes
    nothing; it rewrites and reports exactly the files matching [*.html],
    other than the two fixed names, on whose text the transformation
    changes its own result. *)
Theorem rerun_changes d :
  NoDup (map fst d) ->
  exists st out st2 out2,
    run d = Some (st, out) /\ run (fs st) = Some (st2, out2)
    /\ changed st2 = writes st2
    /\ forall p, In p (changed st2) <->
         exists t, read_text d p = Some t /\ is_html p = true
                   /\ is_fixed p = false
                   /\ transform (transform t) <> transform t.
Proof.
  intros Hnd. destruct (run_spec d Hnd) as (st & Hrun & _ & _ & Hr).
  pose proof (run_NoDup d st _ Hnd Hrun) as Hnd'.
  destruct (run_spec (fs st) Hnd') as (st2 & Hrun2 & Hw2 & Hc2 & _).
  exists st, (report (changed st)), st2, (report (changed st2)).
  split; [exact Hrun|]. split; [exact Hrun2|].
  assert (E : filter (exists_ (fs st)) fixed_names = []).
  { unfold fixed_names, exists_. simpl. rewrite !Hr. reflexivity. }
  rewrite E in Hc2. simpl in Hc2. rewrite app_nil_r in Hc2.
  split; [congruence|].
  intros p. rewrite Hc2, filter_In, glob_html_In. unfold needs_write.
  rewrite Hr. split.
  - intros ((_ & Hh) & H). rewrite Hh in *.
    destruct (is_fixed p); [discriminate|].
    destruct (read_text d p) as [t|]; [|discriminate]. simpl in H.
    exists t. split; [reflexivity|]. split; [reflexivity|].
    split; [reflexivity|]. intros Eq.
    apply text_eqb_eq in Eq. rewrite Eq in H. discriminate.
  - intros (t & Ht & Hh & Hf & Hne). rewrite Hh, Hf, Ht. simpl.
    split; [split; [|reflexivity]|].
    + destruct (in_dec string_dec p (map fst (fs st))) as [Hi|Hi]; [exact Hi|].
      apply read_text_None in Hi. rewrite Hr, Hf, Hh, Ht in Hi. discriminate.
    + destruct (text_eqb (transform (transform t)) (transform t)) eqn:Eq;
        [|reflexivity].
      apply text_eqb_eq in Eq. contradiction.
Qed.

Lemma rerun_changes_witness :
  exists st out st2 out2,
    run dir_example = Some (st, out) /\ run (fs st) = Some (st2, out2)
    /\ changed st2 = writes st2
    /\ forall p, In p (changed st2) <->
         exists t, read_text dir_example p = Some t /\ is_html p = true
                   /\ is_fixed p = false
                   /\ transform (transform t) <> transform t.
Proof. apply (rerun_changes dir_example). nodup_names. Defined.

(** ** When the report is [No changes] *)

Lemma has_char_app a s1 s2 :
  has_char a (s1 ++ s2)%string = has_char a s1 || has_char a s2.
Proof.
  induction s1 as [|c s1 IH]; simpl; [reflexivity|].
  rewrite IH. apply orb_assoc.
Qed.

Lemma has_char_substring a s : forall n k,
  has_char a (substring n k s) = true -> has_char a s = true.
Proof.
  induction s as [|c s IH]; intros n k H.
  - destruct n, k; simpl in H; discriminate.
  - destruct n as [|n].
    + destruct k as [|k]; simpl in H; [discriminate|].
      simpl. apply orb_true_iff in H. apply orb_true_iff.
      destruct H as [H|H]; [left; exact H | right; apply (IH 0 k H)].
    + simpl in H. simpl. rewrite (IH n k H). apply orb_true_r.
Qed.

(** Every name matching [*.html] holds a dot. *)
Lemma is_html_dot n : is_html n = true -> has_char "." n = true.
Proof.
  unfold is_html. intros H. apply andb_true_iff in H. destruct H as [_ H].
  apply String.eqb_eq in H.
  apply (has_char_substring "." n (String.length n - 5) 5).
  rewrite H. reflexivity.
Qed.

Lemma has_char_concat a sep x l :
  has_char a x = true -> has_char a (String.concat sep (x :: l)) = true.
Proof.
  intros H. destruct l as [|y l]; simpl; [exact H|].
  rewrite has_char_app, H. reflexivity.
Qed.

(** A list of entries that hold a dot is printed as [No changes] only when
    it is empty. *)
Lemma report_no_changes l :
  (forall x, In x l -> has_char "." x = true) ->
  report l = "No changes" -> l = [].
Proof.
  intros Hl H. destruct l as [|x l]; [reflexivity|]. exfalso.
  unfold report in H.
  assert (E : has_char "." (String.concat newline (x :: l)) = true)
    by (apply has_char_concat, Hl; left; reflexivity).
  rewrite H in E. discriminate E.
Qed.

Lemma filter_nil_iff {A} (f : A -> bool) l :
  filter f l = [] <-> forall x, In x l -> f x = false.
Proof.
  induction l as [|a l IH]; simpl; [tauto|].
  destruct (f a) eqn:E.
  - split; [discriminate|]. intros H. specialize (H a (or_introl eq_refl)).
    congruence.
  - rewrite IH. split.
    + intros H x [<-|Hx]; auto.
    + intros H x Hx. apply H. right. exact Hx.
Qed.

(** X8: the script prints [No changes] exactly when the transformation
    changes the text of no file matching [*.html] and neither [blog.html]
    nor [blogs.html] exists. *)
Theorem no_changes_iff d :
  NoDup (map fst d) ->
  exists st out, run d = Some (st, out)
    /\ (out = "No changes" <->
        (forall p t, In (p, t) d -> is_html p = true -> transform t = t)
        /\ exists_ d "blog.html" = false /\ exists_ d "blogs.html" = false).
Proof.
  intros Hnd. destruct (run_spec d Hnd) as (st & Hrun & _ & Hc & _).
  exists st, (report (changed st)). split; [exact Hrun|].
  assert (Hdot : forall x, In x (changed st) -> has_char "." x = true).
  { intros x Hx. rewrite Hc in Hx. apply in_app_or in Hx.
    destruct Hx as [Hx|Hx].
    - apply filter_In in Hx. destruct Hx as [Hx _].
      apply glob_html_In in Hx. apply is_html_dot. tauto.
    - apply in_map_iff in Hx. destruct Hx as (n & <- & Hn).
      apply filter_In in Hn. destruct Hn as [Hn _].
      destruct Hn as [<-|[<-|[]]]; reflexivity. }
  assert (Hiff : changed st = [] <->
            filter (needs_write d) (glob_html d) = []
            /\ filter (exists_ d) fixed_names = []).
  { rewrite Hc. split.
    - intros H. apply app_eq_nil in H. destruct H as [H1 H2].
      split; [exact H1|]. destruct (filter (exists_ d) fixed_names);
        [reflexivity | discriminate H2].
    - intros [H1 H2]. rewrite H1, H2. reflexivity. }
  split.
  - intros H. apply (report_no_changes _ Hdot) in H. apply Hiff in H.
    destruct H as [H1 H2]. split.
    + intros p t Hin Hh. rewrite filter_nil_iff in H1.
      pose proof (read_text_In d p t Hnd Hin) as Hr.
      assert (Hg : In p (glob_html d)).
      { apply glob_html_In. split; [|exact Hh].
        apply (in_map fst) in Hin. exact Hin. }
      specialize (H1 p Hg). unfold needs_write in H1. rewrite Hr in H1.
      apply negb_false_iff in H1. apply text_eqb_eq in H1. exact H1.
    + rewrite filter_nil_iff in H2. split; apply H2; simpl; auto.
  - intros (H1 & H2 & H3).
    assert (E : changed st = []).
    { apply Hiff. split.
      - apply filter_nil_iff. intros p Hp. apply glob_html_In in Hp.
        destruct Hp as [Hin Hh]. unfold needs_write.
        destruct (read_text d p) as [t|] eqn:Hr; [|reflexivity].
        apply negb_false_iff, text_eqb_eq.
        apply (H1 p t); [apply read_text_Some_In; exact Hr | exact Hh].
      - unfold fixed_names. simpl. rewrite H2, H3. reflexivity. }
    rewrite E. reflexivity.
Qed.

Lemma no_changes_iff_witness :
  exists st out, run dir_example = Some (st, out)
    /\ (out = "No changes" <->
        (forall p t, In (p, t) dir_example -> is_html p = true -> transform t = t)
        /\ exists_ dir_example "blog.html" = false
        /\ exists_ dir_example "blogs.html" = false).
Proof. apply (no_changes_iff dir_example). nodup_names. Defined.

(** ** Letters under [re.I] *)

Lemma ci_eq_lower x c :
  is_lower_ascii x = true ->
  ci_eq x c = ((sre_lower c =? x) || (x =? 105) && (sre_lower c =? 305)
               || (x =? 115) && (sre_lower c =? 383))%N.
Proof.
  intros Hx. unfold ci_eq. rewrite Hx, orb_true_r.
  assert (E : lower_ascii x = x).
  { unfold lower_ascii, is_upper_ascii, is_lower_ascii in *.
    apply andb_true_iff in Hx. destruct Hx as [H1 _]. apply N.leb_le in H1.
    destruct (x <=? 90)%N eqn:H2; [|rewrite andb_false_r; reflexivity].
    apply N.leb_le in H2. lia. }
  cbv zeta. rewrite E. reflexivity.
Qed.

(** Two different small letters match no common character. *)
Lemma ci_eq_other x y c :
  is_lower_ascii x = true -> is_lower_ascii y = true -> x <> y ->
  ci_eq x c = true -> ci_eq y c = false.
Proof.
  intros Hx Hy Hxy. rewrite (ci_eq_lower x c Hx), (ci_eq_lower y c Hy).
  unfold is_lower_ascii in Hx, Hy.
  apply andb_true_iff in Hx. destruct Hx as [Hx1 Hx2].
  apply andb_true_iff in Hy. destruct Hy as [Hy1 Hy2].
  apply N.leb_le in Hx1, Hx2, Hy1, Hy2.
  remember (sre_lower c) as z eqn:Ez. clear Ez.
  destruct (N.eqb_spec z x), (N.eqb_spec z y), (N.eqb_spec x 105),
    (N.eqb_spec y 105), (N.eqb_spec x 115), (N.eqb_spec y 115),
    (N.eqb_spec z 305), (N.eqb_spec z 383); simpl; intros H;
    try reflexivity; try discriminate H; exfalso; lia.
Qed.

(** ** The tags the patterns open *)

Lemma rx_li_opens w : matches rx_li w -> has_open 108%N w = true.
Proof.
  intros H. apply (lead_open_word 108%N [105%N]) in H.
  destruct H as (u & c & w' & -> & _ & Hc). apply open_has_open. exact Hc.
Qed.

Lemma rx_a_opens w : matches rx_a w -> has_open 97%N w = true.
Proof.
  intros H. apply (lead_open_word 97%N []) in H.
  destruct H as (u & c & w' & -> & _ & Hc). apply open_has_open. exact Hc.
Qed.

Lemma rx_section_opens w : matches rx_section w -> has_open 115%N w = true.
Proof.
  intros H. apply (open_word 115%N (str "ection")) in H.
  destruct H as (c & w' & -> & Hc). apply (open_has_open 115%N []). exact Hc.
Qed.

Lemma rx_h_opens w : matches rx_h w -> has_open 104%N w = true.
Proof.
  intros H. apply (lead_open_word 104%N []) in H.
  destruct H as (u & c & w' & -> & _ & Hc). apply open_has_open. exact Hc.
Qed.

(** ** The section rule *)

Lemma forallb_not_gt s : forallb not_gt s = true <-> ~ In GT s.
Proof.
  rewrite forallb_forall. unfold not_gt. split.
  - intros H Hin. specialize (H GT Hin). discriminate H.
  - intros H x Hx. apply negb_true_iff. apply N.eqb_neq. intros ->. exact (H Hx).
Qed.

Lemma forallb_not_quote s : forallb not_quote s = true <-> ~ In QUOTE s.
Proof.
  rewrite forallb_forall. unfold not_quote. split.
  - intros H Hin. specialize (H QUOTE Hin). discriminate H.
  - intros H x Hx. apply negb_true_iff. apply N.eqb_neq. intros ->. exact (H Hx).
Qed.

(** A word of a literal without [>] holds no [>]. *)
Lemma ilit_no_gt l w :
  (forall x, In x l -> ci_eq x GT = false) ->
  matches (ilit_text l) w -> ~ In GT w.
Proof.
  intros Hl Hw. apply matches_ilit in Hw.
  induction Hw as [|x c l w Hc Hw IH]; [intros []|].
  intros [E|Hin].
  - subst c. rewrite (Hl x) in Hc by (left; reflexivity). discriminate.
  - apply IH; [|exact Hin]. intros y Hy. apply Hl. right. exact Hy.
Qed.

Ltac no_gt_lit :=
  let x := fresh "x" in let Hx := fresh "Hx" in
  intros x Hx; simpl in Hx;
  repeat (destruct Hx as [<-|Hx]; [reflexivity|]); destruct Hx.

(** The words of the part before the quote: no [>], and [=] at the end. *)
Lemma section_key_word u :
  matches (seqs section_key) u -> ~ In GT u /\ u <> [] /\ last u 0%N = 61%N.
Proof.
  unfold section_key. cbn [seqs matches].
  intros (a & r1 & -> & Ha & (b & r2 & -> & Hb & (c & r3 & -> & Hc
          & (e & r4 & -> & He & ->)))).
  assert (Ha' : ~ In GT a)
    by (apply (ilit_no_gt (str "<section")); [no_gt_lit | exact Ha]).
  assert (Hb' : ~ In GT b) by (apply forallb_not_gt; exact Hb).
  assert (Hc' : ~ In GT c).
  { destruct Hc as [Hc|Hc];
      [apply (ilit_no_gt (str "id")) | apply (ilit_no_gt (str "class"))];
      solve [no_gt_lit | exact Hc]. }
  apply matches_ilit in He. change (str "=") with [61%N] in He.
  inversion He as [|? y ? ? Hy Hnil]; subst. inversion Hnil; subst.
  apply ci_eq_not_letter in Hy; [|reflexivity]. subst y.
  rewrite app_nil_r. split; [|split].
  - intros Hin. repeat (apply in_app_or in Hin; destruct Hin as [Hin|Hin]);
      try tauto. destruct Hin as [E|[]]. discriminate E.
  - intros E. apply app_eq_nil in E. destruct E as [_ E].
    apply app_eq_nil in E. destruct E as [_ E].
    apply app_eq_nil in E. destruct E as [_ E]. discriminate E.
  - rewrite !app_assoc. apply last_last.
Qed.

(** The words of the opening tag. *)
Lemma section_open_word w :
  matches (seqs section_open) w ->
  exists u h c, w = u ++ QUOTE :: h ++ QUOTE :: c ++ [GT]
    /\ matches (seqs section_key) u
    /\ ~ In QUOTE h /\ ~ In GT c.
Proof.
  unfold section_open. intros H. apply matches_seqs_app in H.
  destruct H as (u & v & -> & Hu & Hv). cbn [seqs matches] in Hv.
  destruct Hv as (q1 & r1 & -> & (c1 & -> & Hq1) & (h1 & r2 & -> & Hh1
    & (bl & r3 & -> & Hbl & (h2 & r4 & -> & Hh2 & (q2 & r5 & -> & (c2 & -> & Hq2)
    & (c & r6 & -> & Hc & (g & r7 & -> & Hg & ->))))))).
  unfold is_quote in Hq1, Hq2. apply N.eqb_eq in Hq1, Hq2. subst c1 c2.
  apply matches_ilit in Hg. change (str ">") with [GT] in Hg.
  inversion Hg as [|? y ? ? Hy Hnil]; subst. inversion Hnil; subst.
  apply ci_eq_not_letter in Hy; [|reflexivity]. subst y.
  exists u, (h1 ++ bl ++ h2), c. split; [|split; [exact Hu|split]].
  - simpl. rewrite <- !app_assoc. reflexivity.
  - apply forallb_not_quote in Hh1, Hh2.
    assert (Hb : ~ In QUOTE bl).
    { apply matches_ilit in Hbl.
      change (str "blog") with [98%N; 108%N; 111%N; 103%N] in Hbl.
      ci_tail. intros Hin. simpl in Hin.
      repeat (destruct Hin as [E|Hin];
              [subst; match goal with H : ci_eq _ QUOTE = true |- _ =>
                        discriminate H end|]).
      exact Hin. }
    intros Hin. repeat (apply in_app_or in Hin; destruct Hin as [Hin|Hin]);
      tauto.
  - apply forallb_not_gt. exact Hc.
Qed.

Lemma gt_split c1 c2 r1 r2 :
  ~ In GT c1 -> ~ In GT c2 -> c1 ++ GT :: r1 = c2 ++ GT :: r2 -> r1 = r2.
Proof.
  intros H1 H2 E. apply forallb_not_gt in H1, H2.
  destruct (span_unique not_gt c1 c2 GT GT r1 r2 H1 H2 eq_refl eq_refl E)
    as (_ & _ & Hr). exact Hr.
Qed.

(** The opening tag ends where it ends: when the tag holds a single [>],
    no quote after its last quoted value, and no [=] just before the
    quote that closes this value, every word of the opening-tag pattern at
    the head of the text is the tag. *)
Lemma section_open_unique X C rest0 w rest :
  ~ In GT X -> ~ In GT C -> ~ In QUOTE C -> last X 0%N <> 61%N ->
  (X ++ QUOTE :: C ++ [GT]) ++ rest0 = w ++ rest ->
  matches (seqs section_open) w -> rest = rest0.
Proof.
  intros HX HC HCq HXl E Hw.
  destruct (section_open_word w Hw) as (u & h & c & -> & Hu & Hh & Hc).
  destruct (section_key_word u Hu) as (Hug & Hune & Hul).
  repeat (rewrite <- app_assoc in E; simpl in E).
  apply app_eq_app in E. destruct E as (l & [[E1 E2]|[E1 E2]]).
  - (* the quote of the word lies in [X] *)
    destruct l as [|a l'].
    + rewrite app_nil_r in E1. congruence.
    + simpl in E2. inversion E2 as [[Ea E3]]. subst a.
      assert (Hl' : ~ In GT l').
      { intros Hin. apply HX. rewrite E1. apply in_or_app. right. right.
        exact Hin. }
      apply app_eq_app in E3.
      destruct E3 as (y & [[E4 E5]|[E4 E5]]).
      * destruct y as [|b y'].
        -- simpl in E5. inversion E5 as [E6].
           symmetry. apply (gt_split C c); assumption.
        -- simpl in E5. inversion E5; subst b.
           exfalso. apply Hh. rewrite E4. apply in_or_app. right. left.
           reflexivity.
      * destruct y as [|b y'].
        -- simpl in E5. inversion E5 as [E6].
           symmetry. apply (gt_split C c); [assumption | assumption|].
           symmetry. exact E6.
        -- simpl in E5. inversion E5 as [[Eb E6]].
           assert (Hy : ~ In GT (y' ++ QUOTE :: C)).
           { intros Hin. apply in_app_or in Hin. destruct Hin as [Hin|[Hin|Hin]].
             - apply Hl'. rewrite E4. apply in_or_app. right. right. exact Hin.
             - discriminate Hin.
             - exact (HC Hin). }
           apply (gt_split c (y' ++ QUOTE :: C)); [exact Hc | exact Hy|].
           rewrite <- app_assoc. exact E6.
  - (* the quote of the word lies behind [X] *)
    exfalso. destruct l as [|a l'].
    + rewrite app_nil_r in E1. congruence.
    + simpl in E2. inversion E2 as [[Ea E3]].
      assert (Hl' : ~ In GT l').
      { intros Hin. apply Hug. rewrite E1. apply in_or_app. right. right.
        exact Hin. }
      apply app_eq_app in E3. destruct E3 as (y & [[E4 E5]|[E4 E5]]).
      * destruct y as [|b y']; simpl in E5; inversion E5.
        apply HCq. rewrite E4. apply in_or_app. right. left. congruence.
      * destruct y as [|b y']; simpl in E5; inversion E5.
        apply Hl'. rewrite E4. apply in_or_app. right. left. congruence.
Qed.

(** The matcher on a literal. *)
Lemma m_ilit l : forall k s,
  m (ilit_text l) k s =
  if prefix_ci l s then k (skipn (List.length l) s) else None.
Proof.
  induction l as [|x l IH]; intros k s; [reflexivity|].
  destruct s as [|c s]; [reflexivity|]. simpl.
  destruct (ci_eq x c); [apply IH | reflexivity].
Qed.

(** The lazy star stops at the first place where the rest of the pattern
    matches. *)
Lemma star_lazy_first (k : text -> option text) body : forall rest x,
  (forall u v, body = u ++ v -> v <> [] -> k (v ++ rest) = None) ->
  k rest = Some x ->
  star_lazy any_char k (body ++ rest) = Some x.
Proof.
  induction body as [|c body IH]; intros rest x Hno Hk.
  - simpl. destruct rest; simpl; rewrite Hk; reflexivity.
  - assert (H0 : k (c :: body ++ rest) = None)
      by (apply (Hno [] (c :: body) eq_refl); discriminate).
    simpl. rewrite H0.
    apply IH; [|exact Hk]. intros u v E Hv. apply (Hno (c :: u) v); [|exact Hv].
    rewrite E. reflexivity.
Qed.

(** A literal holding [<] at its head only does not start before a [<]
    and run over it. *)
Lemma prefix_ci_straddle l : forall v z,
  (forall x, In x l -> ci_eq x LT = false) ->
  prefix_ci l (v ++ LT :: z) = true -> prefix_ci l v = true.
Proof.
  induction l as [|x l IH]; intros v z Hl H.
  - destruct v; reflexivity.
  - destruct v as [|c v]; simpl in H.
    + rewrite (Hl x) in H by (left; reflexivity). discriminate H.
    + apply andb_true_iff in H. destruct H as [Hc H]. simpl. rewrite Hc.
      apply (IH v z); [|exact H]. intros y Hy. apply Hl. right. exact Hy.
Qed.

Lemma prefix_occurs l v : prefix_ci l v = true -> occurs_ci l v = true.
Proof. intros H. destruct v; simpl in *; rewrite H; reflexivity. Qed.

(** The closing tag is not found at a place inside a body that does not
    hold it. *)
Lemma close_not_in_body body close q0 u v :
  occurs_ci (str "</section>") body = false ->
  matches (ilit "</section>") close ->
  body = u ++ v -> v <> [] ->
  prefix_ci (str "</section>") (v ++ close ++ q0) = false.
Proof.
  intros Hb Hc E Hv.
  destruct (prefix_ci (str "</section>") (v ++ close ++ q0)) eqn:H;
    [|reflexivity].
  exfalso. apply matches_ilit in Hc.
  inversion Hc as [|x c0 l close' Hc0 Hc']; subst.
  apply ci_eq_LT in Hc0. subst c0.
  destruct v as [|c v']; [congruence|].
  assert (H' : prefix_ci (str "</section>") (c :: v') = true).
  { change (str "</section>") with (LT :: str "/section>") in *.
    simpl in H. apply andb_true_iff in H. destruct H as [H1 H2].
    simpl. rewrite H1. simpl.
    apply (prefix_ci_straddle (str "/section>") v' (close' ++ q0)); [|exact H2].
    no_gt_lit. }
  apply prefix_occurs in H'.
  rewrite (occurs_ci_suffix _ u _ H') in Hb. discriminate Hb.
Qed.

(** The section pattern at the head of a section element. *)
Lemma match_at_section X C body close q0 :
  matches (seqs section_open) (X ++ QUOTE :: C ++ [GT]) ->
  ~ In GT X -> ~ In GT C -> ~ In QUOTE C -> last X 0%N <> 61%N ->
  occurs_ci (str "</section>") body = false ->
  matches (ilit "</section>") close ->
  match_at rx_section ((X ++ QUOTE :: C ++ [GT]) ++ body ++ close ++ q0)
  = Some q0.
Proof.
  intros Ho HX HC HCq HXl Hb Hc. unfold match_at.
  change rx_section
    with (seqs (section_open ++ [LazyStar any_char; ilit "</section>"])).
  rewrite m_seqs_app.
  rewrite (m_unique _ _ _ (body ++ close ++ q0) Ho).
  - cbn [seqs m]. apply star_lazy_first.
    + intros u v E Hv. unfold ilit. rewrite m_ilit.
      rewrite (close_not_in_body body close q0 u v Hb Hc E Hv). reflexivity.
    + unfold ilit. rewrite m_ilit.
      pose proof Hc as Hc'. apply matches_ilit in Hc'.
      rewrite (prefix_ci_word _ close q0 Hc').
      rewrite (Forall2_length Hc'), skipn_app, skipn_all, Nat.sub_diag.
      reflexivity.
  - intros w rest E Hw.
    apply (section_open_unique X C (body ++ close ++ q0) w rest); assumption.
Qed.

(** A pattern whose words open a tag in [x] matches at no place of a text
    in which no such tag opens and which does not end with [<]. *)
Lemma no_open_no_match rx x p0 rest u v :
  (forall w, matches rx w ->
     exists c w', w = LT :: c :: w' /\ ci_eq x c = true) ->
  has_open x p0 = false -> ends_lt p0 = false ->
  p0 = u ++ v -> v <> [] -> match_at rx (v ++ rest) = None.
Proof.
  intros Hrx Ho He E Hv. apply m_none. intros w rest' Ew Hw. exfalso.
  destruct (Hrx w Hw) as (c & w' & -> & Hc).
  destruct v as [|a [|b v'']]; [congruence| |].
  - simpl in Ew. inversion Ew; subst a.
    unfold ends_lt in He. rewrite E, last_last in He. discriminate He.
  - simpl in Ew. inversion Ew; subst a b.
    assert (H : has_open x (LT :: c :: v'') = true)
      by (simpl; rewrite Hc; reflexivity).
    rewrite E, (has_open_suffix x u _ H) in Ho. discriminate Ho.
Qed.



(** ** Searching a pattern *)

Lemma found_cons r c s : found r (c :: s) = false ->
  match_at r (c :: s) = None /\ found r s = false.
Proof.
  simpl. destruct (match_at r (c :: s)); [discriminate|]. auto.
Qed.

Lemma found_head r s : found r s = false -> match_at r s = None.
Proof.
  destruct s as [|c s]; simpl; destruct (match_at r _); auto; discriminate.
Qed.

(** A pattern that is not found has no word inside the text. *)
Lemma found_false r s :
  found r s = false ->
  forall u w v, s = u ++ w ++ v -> ~ matches r w.
Proof.
  intros H u. revert s H. induction u as [|c u IH]; intros s H w v E Hw.
  - simpl in E. subst s. apply found_head in H.
    apply (m_complete r (fun rest => Some rest) w v Hw); [discriminate|].
    exact H.
  - subst s. simpl in H. apply found_cons in H. destruct H as [_ H].
    apply (IH _ H w v eq_refl Hw).
Qed.

(** A pattern whose words start with [<] is not found in front of a text
    either, when this front holds no [<]. *)
Lemma found_plain_prefix r u s :
  (forall w, matches r w -> exists w', w = LT :: w') ->
  ~ In LT u -> found r s = false -> found r (u ++ s) = false.
Proof.
  intros Hr Hu Hs. induction u as [|c u IH]; [exact Hs|].
  simpl. rewrite IH by (intros Hin; apply Hu; right; exact Hin).
  assert (E : match_at r (c :: u ++ s) = None).
  { apply m_none. intros w rest Ew Hw. exfalso.
    destruct (Hr w Hw) as (w' & ->). simpl in Ew. inversion Ew; subst c.
    apply Hu. left. reflexivity. }
  rewrite E. reflexivity.
Qed.

(** The extent of a match, when the text behind the word may hold [<] but
    not the closing tag. *)
Lemma extent_unique_tame l tail k w0 rest0 :
  (forall t, matches (seqs tail) t ->
     exists t', t = LT :: t' /\ ~ In LT t' /\ List.length t' = k) ->
  matches (seqs (l ++ tail)) w0 ->
  count_lt w0 = S (min_count (seqs l)) ->
  found (seqs tail) rest0 = false ->
  forall w rest, w0 ++ rest0 = w ++ rest ->
    matches (seqs (l ++ tail)) w -> rest = rest0.
Proof.
  intros Htail H0 Hc Hrest w rest E Hw.
  apply matches_seqs_app in H0. destruct H0 as (a0 & t0 & -> & Ha0 & Ht0).
  apply matches_seqs_app in Hw. destruct Hw as (a & t & -> & Ha & Ht).
  destruct (Htail t0 Ht0) as (t0' & -> & Hn0 & L0).
  destruct (Htail t Ht) as (t' & E' & Hn & L).
  rewrite count_lt_app, count_lt_cons_LT in Hc.
  pose proof Hn0 as Hz. apply count_lt_zero in Hz.
  pose proof (min_count_le (seqs l) a Ha) as Hmin.
  pose proof (found_false _ _ Hrest) as Hnot.
  subst t. repeat (rewrite <- app_assoc in E; simpl in E).
  apply app_eq_app in E. destruct E as (y & [[E1 E2]|[E1 E2]]).
  - destruct y as [|b y'].
    + simpl in E2. inversion E2 as [E3].
      symmetry. apply (app_eq_length t0' t'); [symmetry; exact E3 | lia].
    + simpl in E2. inversion E2 as [[Eb E3]]. exfalso.
      rewrite E1, count_lt_app, <- Eb, count_lt_cons_LT in Hc. lia.
  - destruct y as [|b y'].
    + simpl in E2. inversion E2 as [E3].
      symmetry. apply (app_eq_length t0' t'); [exact E3 | lia].
    + simpl in E2. inversion E2 as [[Eb E3]]. exfalso.
      apply app_eq_app in E3. destruct E3 as (z & [[E4 E5]|[E4 E5]]).
      * destruct z as [|c z'].
        -- simpl in E5. apply (Hnot [] (LT :: t') rest); [|exact Ht].
           simpl. symmetry. exact E5.
        -- simpl in E5. inversion E5 as [[Ec E6]].
           apply Hn0. rewrite E4, <- Ec. apply in_or_app. right. left.
           reflexivity.
      * apply (Hnot z (LT :: t') rest); [|exact Ht]. simpl. exact E5.
Qed.

(** ** An element between texts that hold other tags *)

Section TameElement.

(** The pattern is [\n?\s*], then [l], then a closing tag [tail], then
    [\s*]; [l] starts with the literals [<] and [x].  The element stands
    between [p0] and [q0], in which no tag in [x] opens; [q0] does not
    hold the closing tag. *)
Variables (x : char) (t : text) (l' tail : list regex) (k : nat).
Let l := ilit_text (LT :: x :: t) :: l'.
Let rx := seqs ((lead :: l ++ tail) ++ [ws]).

Hypothesis tail_word : forall w, matches (seqs tail) w ->
  exists w', w = LT :: SLASH :: w' /\ ~ In LT w' /\ List.length w' = k.

Lemma tame_tail_word w : matches (seqs tail) w ->
  exists w', w = LT :: w' /\ ~ In LT w' /\ List.length w' = S k.
Proof.
  intros H. destruct (tail_word w H) as (w' & -> & Hn & L).
  exists (SLASH :: w'). split; [reflexivity|]. split; [|simpl; lia].
  intros [E|Hin]; [discriminate E | exact (Hn Hin)].
Qed.

Variables (p0 wsp item wsq q0 : text).
Hypothesis item_word : matches (seqs (l ++ tail)) item.
Hypothesis item_count : count_lt item = S (min_count (seqs l)).
Hypothesis wsp_blank : forallb is_space wsp = true.
Hypothesis wsq_blank : forallb is_space wsq = true.
Hypothesis p0_end : is_space (last p0 0%N) = false.
Hypothesis p0_lt : ends_lt p0 = false.
Hypothesis q0_start : is_space (hd 0%N q0) = false.
Hypothesis q0_close : found (seqs tail) q0 = false.

Lemma tame_match_at :
  match_at rx (wsp ++ item ++ wsq ++ q0) = Some q0.
Proof.
  unfold match_at, rx. rewrite m_seqs_app.
  replace (wsp ++ item ++ wsq ++ q0) with ((wsp ++ item) ++ (wsq ++ q0))
    by (rewrite <- app_assoc; reflexivity).
  assert (Hw : matches (seqs ((lead :: l) ++ tail)) (wsp ++ item)).
  { simpl. exists wsp, item. split; [reflexivity|]. split; [|exact item_word].
    exists [], wsp. simpl. auto. }
  change (lead :: l ++ tail) with ((lead :: l) ++ tail).
  rewrite (m_unique _ _ (wsp ++ item) (wsq ++ q0) Hw).
  - simpl. apply star_space_run; assumption.
  - apply (extent_unique_tame (lead :: l) tail (S k));
      [exact tame_tail_word | exact Hw | |].
    + rewrite count_lt_app, item_count.
      assert (E : count_lt wsp = 0)
        by (apply count_lt_zero, spaces_no_lt, wsp_blank).
      rewrite E. reflexivity.
    + apply found_plain_prefix; [|apply spaces_no_lt, wsq_blank | exact q0_close].
      intros w Hw'. destruct (tame_tail_word w Hw') as (w' & -> & _).
      exists w'. reflexivity.
Qed.

(** No match starts inside [p0]. *)
Lemma tame_no_match u v rest :
  has_open x p0 = false ->
  p0 = u ++ v -> v <> [] -> match_at rx (v ++ rest) = None.
Proof.
  intros Hp E Hv. apply m_none. intros w rest' Ew Hw. exfalso.
  destruct (rx_word x t l' tail w Hw) as (u' & c & w' & -> & Hu' & Hc).
  pose proof (suffix_not_blank p0 u v p0_end E Hv) as Hnb.
  destruct (forallb_false_split is_space v Hnb) as (v1 & c1 & v2 & -> & H1 & Hc1).
  repeat (rewrite <- app_assoc in Ew; simpl in Ew).
  destruct (span_unique is_space v1 u' c1 LT _ _ H1 Hu' Hc1 is_space_LT Ew)
    as (-> & -> & E2).
  destruct v2 as [|c2 v2'].
  - unfold ends_lt in p0_lt. rewrite E, app_assoc, last_last in p0_lt.
    discriminate p0_lt.
  - simpl in E2. inversion E2; subst c2.
    rewrite E in Hp.
    rewrite (has_open_suffix x u _ (open_has_open x u' c v2' Hc)) in Hp.
    discriminate Hp.
Qed.

(** The element and the white space around it are replaced by nothing;
    the text before and after is copied. *)
Lemma tame_sub :
  has_open x p0 = false -> has_open x q0 = false ->
  sub rx [] (p0 ++ wsp ++ item ++ wsq ++ q0) = p0 ++ q0.
Proof.
  intros Hp Hq. rewrite sub_prefix.
  - f_equal.
    replace (wsp ++ item ++ wsq ++ q0) with ((wsp ++ item ++ wsq) ++ q0)
      by (rewrite <- !app_assoc; reflexivity).
    rewrite sub_match_app.
    + simpl. apply (sub_no_open rx x); [|exact Hq].
      intros w Hw.
      destruct (rx_word x t l' tail w Hw) as (u & c & w' & -> & _ & Hc).
      apply open_has_open. exact Hc.
    + intros E. apply app_eq_nil in E. destruct E as [_ E].
      apply app_eq_nil in E. destruct E as [E _].
      rewrite E in item_count. discriminate.
    + rewrite <- !app_assoc. apply tame_match_at.
  - intros u v E Hv. apply (tame_no_match u v _ Hp E Hv).
Qed.

(** When the element has two [<] only, no tag in another letter [y] opens
    in the text unless it opens in [p0] or [q0]. *)
Lemma tame_no_other_open y :
  min_count (seqs l) = 1 ->
  (forall c, ci_eq x c = true -> ci_eq y c = false) ->
  ci_eq y SLASH = false ->
  has_open y p0 = false -> has_open y q0 = false ->
  has_open y (p0 ++ wsp ++ item ++ wsq ++ q0) = false.
Proof.
  intros Hmin Hxy Hy Hp Hq.
  pose proof item_word as Hi. apply matches_seqs_app in Hi.
  destruct Hi as (a & b & Ei & Ha & Hb).
  destruct (tail_word b Hb) as (b' & -> & Hb' & _).
  pose proof (open_word x t l' a Ha) as (c & a' & -> & Hc).
  pose proof item_count as Hcount.
  rewrite Ei, Hmin, count_lt_app, !count_lt_cons_LT in Hcount.
  assert (Ha' : ~ In LT (c :: a')).
  { apply count_lt_zero. lia. }
  assert (Hb2 : ~ In LT (SLASH :: b')).
  { intros [E|Hin]; [discriminate E | exact (Hb' Hin)]. }
  assert (Hitem : has_open y item = false /\ ends_lt item = false).
  { rewrite Ei. split.
    - change ((LT :: c :: a') ++ LT :: SLASH :: b')
        with ([LT] ++ (c :: a') ++ [LT] ++ (SLASH :: b')).
      rewrite !has_open_app.
      rewrite (no_lt_no_open y _ Ha'), (no_lt_no_open y _ Hb2).
      rewrite (no_lt_ends _ Ha').
      simpl. rewrite (Hxy c Hc), Hy. reflexivity.
    - unfold ends_lt. apply N.eqb_neq. intros E.
      rewrite last_app_ne in E by discriminate.
      change (last (LT :: SLASH :: b') 0%N) with (last (SLASH :: b') 0%N) in E.
      apply Hb2. rewrite <- E. apply last_In. discriminate. }
  destruct Hitem as [Hio Hie].
  rewrite !has_open_app.
  rewrite Hp, p0_lt.
  rewrite (no_lt_no_open y wsp (spaces_no_lt wsp wsp_blank)),
          (no_lt_ends wsp (spaces_no_lt wsp wsp_blank)).
  rewrite Hio, Hie.
  rewrite (no_lt_no_open y wsq (spaces_no_lt wsq wsq_blank)),
          (no_lt_ends wsq (spaces_no_lt wsq wsq_blank)).
  rewrite Hq. reflexivity.
Qed.

End TameElement.

Lemma found_seqs1 r s : found (seqs [r]) s = found r s.
Proof.
  assert (E : forall s', match_at (seqs [r]) s' = match_at r s')
    by reflexivity.
  induction s as [|c s IH]; cbn [found]; rewrite E; [reflexivity|].
  rewrite IH. reflexivity.
Qed.

Lemma tame_opens s :
  tame s = true ->
  has_open 108%N s = false /\ has_open 97%N s = false
  /\ has_open 115%N s = false /\ has_open 104%N s = false.
Proof.
  unfold tame. intros H. apply negb_true_iff in H.
  apply orb_false_iff in H. destruct H as [H H4].
  apply orb_false_iff in H. destruct H as [H H3].
  apply orb_false_iff in H. destruct H as [H1 H2]. auto.
Qed.

Lemma has_open_join y p0 q0 :
  has_open y p0 = false -> ends_lt p0 = false -> has_open y q0 = false ->
  has_open y (p0 ++ q0) = false.
Proof. intros H1 H2 H3. rewrite has_open_app, H1, H2, H3. reflexivity. Qed.

(** The rules on a joined text in which none of their tags opens. *)
Lemma rules_tame p0 q0 :
  tame p0 = true -> ends_lt p0 = false -> tame q0 = true ->
  sub rx_li [] (p0 ++ q0) = p0 ++ q0 /\ sub rx_a [] (p0 ++ q0) = p0 ++ q0
  /\ sub rx_section [] (p0 ++ q0) = p0 ++ q0
  /\ sub rx_h [] (p0 ++ q0) = p0 ++ q0.
Proof.
  intros Hp He Hq.
  destruct (tame_opens p0 Hp) as (P1 & P2 & P3 & P4).
  destruct (tame_opens q0 Hq) as (Q1 & Q2 & Q3 & Q4).
  split; [apply (sub_no_open rx_li 108%N);
          [exact rx_li_opens | apply has_open_join; assumption]|].
  split; [apply (sub_no_open rx_a 97%N);
          [exact rx_a_opens | apply has_open_join; assumption]|].
  split; [apply (sub_no_open rx_section 115%N);
          [exact rx_section_opens | apply has_open_join; assumption]|].
  apply (sub_no_open rx_h 104%N);
    [exact rx_h_opens | apply has_open_join; assumption].
Qed.

Lemma ci_eq_lower_slash y : is_lower_ascii y = true -> ci_eq y SLASH = false.
Proof.
  intros Hy. rewrite (ci_eq_lower y SLASH Hy).
  unfold is_lower_ascii in Hy. apply andb_true_iff in Hy.
  destruct Hy as [Hy _]. apply N.leb_le in Hy.
  change (sre_lower SLASH) with 47%N.
  destruct (N.eqb_spec 47 y); [lia|]. simpl.
  rewrite !andb_false_r. reflexivity.
Qed.

(** ** The anchor rule *)



(** ** The list-item rule and the heading rule *)





(** ** What a rule needs to find *)

Lemma found_true r s :
  found r s = true -> exists u w v, s = u ++ w ++ v /\ matches r w.
Proof.
  induction s as [|c s IH]; simpl.
  - destruct (match_at r []) as [x|] eqn:E; [|discriminate]. intros _.
    destruct (m_sound r _ _ _ E) as (w & rest & Es & Hw & _).
    exists [], w, rest. auto.
  - destruct (match_at r (c :: s)) as [x|] eqn:E.
    + intros _. destruct (m_sound r _ _ _ E) as (w & rest & Es & Hw & _).
      exists [], w, rest. auto.
    + intros H. destruct (IH H) as (u & w & v & -> & Hw).
      exists (c :: u), w, v. auto.
Qed.

Lemma found_intro r u w v : matches r w -> found r (u ++ w ++ v) = true.
Proof.
  intros Hw. destruct (found r (u ++ w ++ v)) eqn:E; [reflexivity|].
  exfalso. apply (found_false r _ E u w v eq_refl Hw).
Qed.

(** A rule whose words all hold a word of [r] replaces nothing in a text
    where [r] is not found. *)
Lemma sub_not_found rx r s :
  (forall w, matches rx w -> exists u v z, w = u ++ v ++ z /\ matches r v) ->
  found r s = false -> sub rx [] s = s.
Proof.
  intros Hrx Hs.
  apply (sub_no_factor rx (fun s => found r s = true)).
  - intros u v w H. destruct (found_true r v H) as (a & b & c & -> & Hb).
    replace (u ++ (a ++ b ++ c) ++ w) with ((u ++ a) ++ b ++ (c ++ w))
      by (rewrite <- !app_assoc; reflexivity).
    apply found_intro. exact Hb.
  - intros w Hw. destruct (Hrx w Hw) as (u & v & z & -> & Hv).
    apply found_intro. exact Hv.
  - rewrite Hs. discriminate.
Qed.

(** A word of a sequence holds a word of each run of its members. *)
Lemma seqs_run_factor l1 l2 l3 w :
  matches (seqs (l1 ++ l2 ++ l3)) w ->
  exists u v z, w = u ++ v ++ z /\ matches (seqs l2) v.
Proof.
  intros H. apply matches_seqs_app in H. destruct H as (u & r & -> & _ & H).
  apply matches_seqs_app in H. destruct H as (v & z & -> & Hv & _).
  exists u, v, z. auto.
Qed.



(** ** The report of a second run *)

(** The report of a run, from the directory it starts on. *)
Lemma run_report d st out :
  NoDup (map fst d) -> run d = Some (st, out) ->
  (out = "No changes" <->
   filter (needs_write d) (glob_html d) = []
   /\ filter (exists_ d) fixed_names = []).
Proof.
  intros Hnd H. destruct (run_spec d Hnd) as (st' & Hrun & _ & Hc & _).
  rewrite Hrun in H. inversion H; subst st' out. clear H.
  assert (Hdot : forall x, In x (changed st) -> has_char "." x = true).
  { intros x Hx. rewrite Hc in Hx. apply in_app_or in Hx.
    destruct Hx as [Hx|Hx].
    - apply filter_In in Hx. destruct Hx as [Hx _].
      apply glob_html_In in Hx. apply is_html_dot. tauto.
    - apply in_map_iff in Hx. destruct Hx as (n & <- & Hn).
      apply filter_In in Hn. destruct Hn as [Hn _].
      destruct Hn as [<-|[<-|[]]]; reflexivity. }
  split.
  - intros H. apply (report_no_changes _ Hdot) in H. rewrite Hc in H.
    apply app_eq_nil in H. destruct H as [H1 H2]. split; [exact H1|].
    destruct (filter (exists_ d) fixed_names); [reflexivity | discriminate H2].
  - intros [H1 H2]. rewrite Hc, H1, H2. reflexivity.
Qed.

(** X14: a second run on the directory the first run leaves prints
    [No changes] exactly when, for every file matching [*.html] other
    than the two fixed names, the transformation is stable on the text the
    first run read: applied to its own result it changes nothing. *)
Theorem rerun_report_iff d :
  NoDup (map fst d) ->
  exists st out st2 out2,
    run d = Some (st, out) /\ run (fs st) = Some (st2, out2)
    /\ (out2 = "No changes" <->
        forall p t, In (p, t) d -> is_html p = true -> is_fixed p = false ->
                    transform (transform t) = transform t).
Proof.
  intros Hnd. destruct (run_spec d Hnd) as (st & Hrun & _ & _ & Hr).
  pose proof (run_NoDup d st _ Hnd Hrun) as Hnd'.
  destruct (run_spec (fs st) Hnd') as (st2 & Hrun2 & _).
  exists st, (report (changed st)), st2, (report (changed st2)).
  split; [exact Hrun|]. split; [exact Hrun2|].
  rewrite (run_report (fs st) st2 _ Hnd' Hrun2).
  assert (E : filter (exists_ (fs st)) fixed_names = []).
  { unfold fixed_names, exists_. simpl. rewrite !Hr. reflexivity. }
  rewrite E, filter_nil_iff. split.
  - intros [H _] p t Hin Hh Hf.
    pose proof (read_text_In d p t Hnd Hin) as Hrd.
    assert (Hrd' : read_text (fs st) p = Some (transform t))
      by (rewrite Hr, Hf, Hh, Hrd; reflexivity).
    assert (Hg : In p (glob_html (fs st))).
    { apply glob_html_In. split; [|exact Hh].
      apply read_text_Some_In in Hrd'. apply (in_map fst) in Hrd'. exact Hrd'. }
    specialize (H p Hg). unfold needs_write in H. rewrite Hrd' in H.
    apply negb_false_iff, text_eqb_eq in H. exact H.
  - intros H. split; [|reflexivity]. intros p Hp.
    apply glob_html_In in Hp. destruct Hp as [_ Hh].
    unfold needs_write. rewrite Hr, Hh.
    destruct (is_fixed p) eqn:Hf; [reflexivity|].
    destruct (read_text d p) as [t|] eqn:Hrd; [|reflexivity]. simpl.
    apply negb_false_iff, text_eqb_eq.
    apply (H p t); [apply read_text_Some_In; exact Hrd | exact Hh | exact Hf].
Qed.

Lemma rerun_report_iff_witness :
  exists st out st2 out2,
    run dir_example = Some (st, out) /\ run (fs st) = Some (st2, out2)
    /\ (out2 = "No changes" <->
        forall p t, In (p, t) dir_example -> is_html p = true ->
                    is_fixed p = false ->
                    transform (transform t) = transform t).
Proof. apply (rerun_report_iff dir_example). nodup_names. Defined.

(** ** A removal can bring a new match together *)

(** X15: the transformation is not idempotent: removing the inner heading
    of [<h1>Bl<h2>Blog</h2>og</h1>] leaves [<h1>Blog</h1>], which a second
    application removes. *)
Theorem transform_not_idempotent :
  transform (str "<h1>Bl<h2>Blog</h2>og</h1>") = str "<h1>Blog</h1>"
  /\ transform (str "<h1>Blog</h1>") = []
  /\ ~ (forall t, transform (transform t) = transform t).
Proof.
  split; [vm_compute; reflexivity|]. split; [vm_compute; reflexivity|].
  intros H. specialize (H (str "<h1>Bl<h2>Blog</h2>og</h1>")).
  vm_compute in H. discriminate H.
Qed.

(** ** The run in terms of the directory alone *)

Lemma exists_In d n : exists_ d n = true <-> In n (map fst d).
Proof.
  unfold exists_. pose proof (read_text_None d n) as H.
  destruct (read_text d n); split; intros H1; try reflexivity;
    try discriminate H1.
  - destruct (in_dec string_dec n (map fst d)) as [Hi|Hi]; [exact Hi|].
    apply H in Hi. discriminate Hi.
  - exfalso. apply (proj1 H); [reflexivity | exact H1].
Qed.

(** The files the first loop rewrites, read off the directory. *)
Lemma rewritten_list d0 :
  NoDup (map fst d0) ->
  forall d, (forall e, In e d -> In e d0) ->
  filter (needs_write d0) (filter is_html (map fst d))
  = map fst (filter (fun e => is_html (fst e)
                              && negb (text_eqb (transform (snd e)) (snd e)))
               d).
Proof.
  intros Hnd d. induction d as [|[n t] d IH]; intros Hin; [reflexivity|].
  assert (Hr : read_text d0 n = Some t)
    by (apply read_text_In; [exact Hnd | apply Hin; left; reflexivity]).
  assert (Hn : needs_write d0 n = negb (text_eqb (transform t) t))
    by (unfold needs_write; rewrite Hr; reflexivity).
  specialize (IH (fun e He => Hin e (or_intror He))).
  simpl. destruct (is_html n); simpl.
  - rewrite Hn. destruct (negb (text_eqb (transform t) t)); simpl;
      rewrite IH; reflexivity.
  - exact IH.
Qed.

Lemma fixed_entries d :
  map deleted_entry (filter (exists_ d) fixed_names)
  = (if in_dec string_dec "blog.html" (map fst d)
     then ["blog.html (deleted)"%string] else [])
    ++ (if in_dec string_dec "blogs.html" (map fst d)
        then ["blogs.html (deleted)"%string] else []).
Proof.
  unfold fixed_names. simpl.
  pose proof (exists_In d "blog.html") as H1.
  pose proof (exists_In d "blogs.html") as H2.
  destruct (in_dec string_dec "blog.html" (map fst d)) as [I1|I1];
    destruct (in_dec string_dec "blogs.html" (map fst d)) as [I2|I2];
    destruct (exists_ d "blog.html"); destruct (exists_ d "blogs.html");
    try reflexivity; exfalso;
    solve [ apply I1, H1; reflexivity | apply I2, H2; reflexivity
          | apply H1 in I1; discriminate I1
          | apply H2 in I2; discriminate I2 ].
Qed.

(** The whole run, with the names and the entries written out. *)
Lemma run_literal d :
  NoDup (map fst d) ->
  exists st1 st,
    process_all (glob_html d) (mkState d [] []) = Some st1
    /\ run d = Some (st, report (changed st))
    /\ writes st = writes st1
    /\ writes st1
       = map fst (filter (fun e => is_html (fst e)
                    && negb (text_eqb (transform (snd e)) (snd e))) d)
    /\ changed st
       = writes st1
         ++ (if in_dec string_dec "blog.html" (map fst d)
             then ["blog.html (deleted)"%string] else [])
         ++ (if in_dec string_dec "blogs.html" (map fst d)
             then ["blogs.html (deleted)"%string] else [])
    /\ map fst (fs st1) = map fst d
    /\ (forall q, read_text (fs st1) q =
          if is_html q then option_map transform (read_text d q)
          else read_text d q)
    /\ (forall q, read_text (fs st) q =
          if is_fixed q then None else read_text (fs st1) q).
Proof.
  intros Hnd.
  destruct (first_loop_spec d Hnd) as (st1 & Hrun1 & Hw1 & Hc1 & Hn1 & Hr1).
  destruct (run_spec d Hnd) as (st & Hrun & Hw & Hc & Hr).
  exists st1, st. split; [exact Hrun1|]. split; [exact Hrun|].
  assert (E : filter (needs_write d) (glob_html d)
              = map fst (filter (fun e => is_html (fst e)
                    && negb (text_eqb (transform (snd e)) (snd e))) d))
    by (apply (rewritten_list d Hnd d); auto).
  split; [congruence|]. split; [congruence|].
  split; [rewrite Hc, Hw1, fixed_entries; reflexivity|].
  split; [exact Hn1|]. split; [exact Hr1|].
  intros q. rewrite Hr, Hr1. reflexivity.
Qed.

(** ** The glob *)

Lemma substring_full t : substring 0 (String.length t) t = t.
Proof. induction t as [|c t IH]; simpl; [reflexivity|]. rewrite IH. reflexivity. Qed.

Lemma substring_app_r s t :
  substring (String.length s) (String.length t) (s ++ t)%string = t.
Proof. induction s as [|c s IH]; simpl; [apply substring_full | exact IH]. Qed.

Lemma length_append s t :
  String.length (s ++ t)%string = String.length s + String.length t.
Proof. induction s as [|c s IH]; simpl; [reflexivity|]. rewrite IH. reflexivity. Qed.

Lemma substring_split n : forall k,
  k <= String.length n ->
  n = (substring 0 k n ++ substring k (String.length n - k) n)%string.
Proof.
  induction n as [|c n IH]; intros k Hk.
  - simpl in Hk. assert (k = 0) by lia. subst k. reflexivity.
  - destruct k as [|k].
    + simpl. rewrite substring_full. reflexivity.
    + simpl in Hk. simpl. f_equal. apply IH. lia.
Qed.

(** A name matches [*.html] exactly when it ends with [.html]. *)
Lemma is_html_spec p :
  is_html p = true <-> exists s, p = (s ++ ".html")%string.
Proof.
  unfold is_html. split.
  - intros H. apply andb_true_iff in H. destruct H as [H1 H2].
    apply Nat.leb_le in H1. apply String.eqb_eq in H2.
    exists (substring 0 (String.length p - 5) p).
    assert (L : String.length p - 5 <= String.length p) by lia.
    pose proof (substring_split p (String.length p - 5) L) as E.
    replace (String.length p - (String.length p - 5)) with 5 in E by lia.
    rewrite H2 in E. exact E.
  - intros (s & ->). rewrite length_append.
    change (String.length ".html") with 5.
    replace (String.length s + 5 - 5) with (String.length s) by lia.
    replace (5 <=? String.length s + 5) with true
      by (symmetry; apply Nat.leb_le; lia).
    pose proof (substring_app_r s ".html") as E.
    change (String.length ".html") with 5 in E. rewrite E. reflexivity.
Qed.

(** ** The write-back policy *)

(** C1: the first loop ends without fault; it writes a file of the
    directory back exactly when the file matches [*.html], that is when its name ends with [.html], and the four
    rules followed by the blank-line collapse give a text different from
    the one read, and no file twice.  On disk, a file that was written
    holds the new text and every other file holds the text it held; the
    second loop writes nothing and leaves every file but [blog.html] and
    [blogs.html] as the first loop left it. *)
Theorem write_back_iff_changed d :
  NoDup (map fst d) ->
  exists st1 st out,
    process_all (glob_html d) (mkState d [] []) = Some st1
    /\ run d = Some (st, out)
    /\ writes st = writes st1
    /\ NoDup (writes st1)
    /\ NoDup (map fst (fs st1))
    /\ forall p t, In (p, t) d ->
         (In p (writes st1) <->
            (exists s, p = (s ++ ".html")%string) /\ transform t <> t)
         /\ (In p (writes st1) -> In (p, transform t) (fs st1))
         /\ (~ In p (writes st1) -> In (p, t) (fs st1))
         /\ (p <> "blog.html" -> p <> "blogs.html" ->
             forall x, In (p, x) (fs st) <-> In (p, x) (fs st1)).
Proof.
  intros Hnd.
  destruct (run_literal d Hnd)
    as (st1 & st & Hrun1 & Hrun & Hw & Hw1 & _ & Hn1 & Hr1 & Hr).
  pose proof (run_NoDup d st _ Hnd Hrun) as Hnds.
  assert (Hnd1 : NoDup (map fst (fs st1))) by (rewrite Hn1; exact Hnd).
  assert (Hiff : forall p t, In (p, t) d ->
            (In p (writes st1) <-> is_html p = true /\ transform t <> t)).
  { intros p t Hin. rewrite Hw1, in_map_iff. split.
    - intros ([p' t'] & E & Hf). simpl in E. subst p'.
      apply filter_In in Hf. destruct Hf as [Hin' Hf]. simpl in Hf.
      pose proof (read_text_In d p t Hnd Hin) as R1.
      pose proof (read_text_In d p t' Hnd Hin') as R2.
      assert (t' = t) by congruence. subst t'.
      apply andb_true_iff in Hf. destruct Hf as [Hh Hne].
      split; [exact Hh|]. intros Eq. apply negb_true_iff in Hne.
      apply (proj2 (text_eqb_eq (transform t) t)) in Eq. congruence.
    - intros [Hh Hne]. exists (p, t). split; [reflexivity|].
      apply filter_In. split; [exact Hin|]. simpl. rewrite Hh. simpl.
      apply negb_true_iff.
      destruct (text_eqb (transform t) t) eqn:Eq; [|reflexivity].
      apply text_eqb_eq in Eq. contradiction. }
  exists st1, st, (report (changed st)).
  split; [exact Hrun1|]. split; [exact Hrun|]. split; [exact Hw|].
  split.
  { rewrite Hw1. clear - Hnd.
    induction d as [|[n t] d IH]; simpl; [constructor|].
    inversion Hnd as [|? ? Hn Hnd']; subst.
    destruct (is_html n && negb (text_eqb (transform t) t)); [|auto].
    simpl. constructor; [|auto]. intros Hin. apply Hn.
    apply in_map_iff in Hin. destruct Hin as (e & <- & He).
    apply filter_In in He. destruct He as [He _]. apply in_map. exact He. }
  split; [exact Hnd1|].
  intros p t Hin. pose proof (read_text_In d p t Hnd Hin) as Rd.
  split; [rewrite <- is_html_spec; apply (Hiff p t Hin)|]. split; [|split].
  - intros Hwp. apply (Hiff p t Hin) in Hwp. destruct Hwp as [Hh _].
    apply read_text_Some_In. rewrite Hr1, Hh, Rd. reflexivity.
  - intros Hnw. apply read_text_Some_In. rewrite Hr1, Rd.
    destruct (is_html p) eqn:Hh; [|reflexivity]. simpl.
    destruct (text_eqb (transform t) t) eqn:Eq.
    + apply text_eqb_eq in Eq. rewrite Eq. reflexivity.
    + exfalso. apply Hnw. apply (Hiff p t Hin). split; [exact Hh|].
      intros E. apply (proj2 (text_eqb_eq (transform t) t)) in E. congruence.
  - intros H1 H2 x.
    assert (Hf : is_fixed p = false).
    { unfold is_fixed. apply orb_false_iff.
      split; apply String.eqb_neq; congruence. }
    split; intros Hx.
    + apply read_text_Some_In. rewrite <- (read_text_In _ p x Hnds Hx).
      rewrite Hr, Hf. reflexivity.
    + apply read_text_Some_In. rewrite Hr, Hf.
      apply (read_text_In _ p x Hnd1 Hx).
Qed.

Lemma write_back_iff_changed_witness :
  exists st1 st out,
    process_all (glob_html dir_example) (mkState dir_example [] []) = Some st1
    /\ run dir_example = Some (st, out)
    /\ writes st = writes st1
    /\ NoDup (writes st1)
    /\ NoDup (map fst (fs st1))
    /\ forall p t, In (p, t) dir_example ->
         (In p (writes st1) <->
            (exists s, p = (s ++ ".html")%string) /\ transform t <> t)
         /\ (In p (writes st1) -> In (p, transform t) (fs st1))
         /\ (~ In p (writes st1) -> In (p, t) (fs st1))
         /\ (p <> "blog.html" -> p <> "blogs.html" ->
             forall x, In (p, x) (fs st) <-> In (p, x) (fs st1)).
Proof. apply (write_back_iff_changed dir_example). nodup_names. Defined.

(** ** The fixed-name deletions and the report *)

Lemma In_names_read d q : In q (map fst d) <-> read_text d q <> None.
Proof.
  pose proof (read_text_None d q) as H. split.
  - intros Hin E. apply H in E. contradiction.
  - intros Hne. destruct (in_dec string_dec q (map fst d)) as [Hi|Hi];
      [exact Hi|]. apply H in Hi. contradiction.
Qed.

Lemma html_entry_not_deleted d n :
  In n (map fst (filter (fun e => is_html (fst e)
          && negb (text_eqb (transform (snd e)) (snd e))) d)) ->
  is_html n = true.
Proof.
  intros H. apply in_map_iff in H. destruct H as (e & <- & He).
  apply filter_In in He. destruct He as [_ He].
  apply andb_true_iff in He. tauto.
Qed.

(** C8: on every run, whatever the first loop did, [blog.html] and
    [blogs.html] are not in the directory afterwards; the entry
    [blog.html (deleted)], and likewise [blogs.html (deleted)], is in the
    change list exactly when the file was in the directory; every other
    name is in the directory afterwards exactly when it was before. *)
Theorem fixed_names_deleted d :
  NoDup (map fst d) ->
  exists st out, run d = Some (st, out)
    /\ ~ In "blog.html" (map fst (fs st))
    /\ ~ In "blogs.html" (map fst (fs st))
    /\ (In "blog.html (deleted)" (changed st) <-> In "blog.html" (map fst d))
    /\ (In "blogs.html (deleted)" (changed st)
        <-> In "blogs.html" (map fst d))
    /\ (forall q, q <> "blog.html" -> q <> "blogs.html" ->
          (In q (map fst (fs st)) <-> In q (map fst d))).
Proof.
  intros Hnd.
  destruct (run_literal d Hnd)
    as (st1 & st & _ & Hrun & _ & Hw1 & Hc & Hn1 & Hr1 & Hr).
  exists st, (report (changed st)). split; [exact Hrun|].
  split; [apply read_text_None; rewrite Hr; reflexivity|].
  split; [apply read_text_None; rewrite Hr; reflexivity|].
  assert (Hno : forall n, is_html n = false -> ~ In n (writes st1)).
  { intros n Hn Hin. rewrite Hw1 in Hin.
    apply html_entry_not_deleted in Hin. congruence. }
  split; [|split].
  - rewrite Hc, !in_app_iff. split.
    + intros [H|[H|H]].
      * exfalso. apply (Hno "blog.html (deleted)"%string); [reflexivity | exact H].
      * destruct (in_dec string_dec "blog.html" (map fst d)); [assumption|].
        destruct H.
      * destruct (in_dec string_dec "blogs.html" (map fst d));
          [|destruct H]. destruct H as [E|[]]. discriminate E.
    + intros H. right. left.
      destruct (in_dec string_dec "blog.html" (map fst d));
        [left; reflexivity | contradiction].
  - rewrite Hc, !in_app_iff. split.
    + intros [H|[H|H]].
      * exfalso. apply (Hno "blogs.html (deleted)"%string); [reflexivity | exact H].
      * destruct (in_dec string_dec "blog.html" (map fst d));
          [|destruct H]. destruct H as [E|[]]. discriminate E.
      * destruct (in_dec string_dec "blogs.html" (map fst d)); [assumption|].
        destruct H.
    + intros H. right. right.
      destruct (in_dec string_dec "blogs.html" (map fst d));
        [left; reflexivity | contradiction].
  - intros q H1 H2.
    assert (Hf : is_fixed q = false).
    { unfold is_fixed. apply orb_false_iff.
      split; apply String.eqb_neq; congruence. }
    rewrite (In_names_read (fs st) q), Hr, Hf, <- (In_names_read (fs st1) q).
    rewrite Hn1. tauto.
Qed.

Lemma fixed_names_deleted_witness :
  exists st out, run dir_example = Some (st, out)
    /\ ~ In "blog.html" (map fst (fs st))
    /\ ~ In "blogs.html" (map fst (fs st))
    /\ (In "blog.html (deleted)" (changed st)
        <-> In "blog.html" (map fst dir_example))
    /\ (In "blogs.html (deleted)" (changed st)
        <-> In "blogs.html" (map fst dir_example))
    /\ (forall q, q <> "blog.html" -> q <> "blogs.html" ->
          (In q (map fst (fs st)) <-> In q (map fst dir_example))).
Proof. apply (fixed_names_deleted dir_example). nodup_names. Defined.

(** C9: the change list holds the files matching [*.html] whose text the
    transformation changes, in enumeration order,
    then [blog.html (deleted)] and [blogs.html (deleted)], in this order,
    for those of the two that were in the directory; the printed text is
    [No changes] when the list is empty, and otherwise its entries with
    one newline character, code 10, between each two. *)
Theorem report_order d :
  NoDup (map fst d) ->
  exists st out, run d = Some (st, out)
    /\ changed st
       = map fst (filter (fun e => is_html (fst e)
                    && (if list_eq_dec N.eq_dec (transform (snd e)) (snd e)
                        then false else true)) d)
         ++ (if in_dec string_dec "blog.html" (map fst d)
             then ["blog.html (deleted)"%string] else [])
         ++ (if in_dec string_dec "blogs.html" (map fst d)
             then ["blogs.html (deleted)"%string] else [])
    /\ (changed st = [] -> out = "No changes")
    /\ (changed st <> [] ->
        out = String.concat (String "010"%char EmptyString) (changed st)).
Proof.
  intros Hnd.
  destruct (run_literal d Hnd) as (st1 & st & _ & Hrun & _ & Hw1 & Hc & _).
  exists st, (report (changed st)). split; [exact Hrun|].
  split.
  { rewrite Hc, Hw1. f_equal. f_equal. apply filter_ext. intros [n x].
    unfold text_eqb. simpl.
    destruct (list_eq_dec N.eq_dec (transform x) x); reflexivity. }
  unfold report.
  destruct (changed st); split; intros H; try congruence; reflexivity.
Qed.

Lemma report_order_witness :
  exists st out, run dir_example = Some (st, out)
    /\ changed st
       = map fst (filter (fun e => is_html (fst e)
                    && (if list_eq_dec N.eq_dec (transform (snd e)) (snd e)
                        then false else true)) dir_example)
         ++ (if in_dec string_dec "blog.html" (map fst dir_example)
             then ["blog.html (deleted)"%string] else [])
         ++ (if in_dec string_dec "blogs.html" (map fst dir_example)
             then ["blogs.html (deleted)"%string] else [])
    /\ (changed st = [] -> out = "No changes")
    /\ (changed st <> [] ->
        out = String.concat (String "010"%char EmptyString) (changed st)).
Proof. apply (report_order dir_example). nodup_names. Defined.



(** ** The collapse on every run of newlines *)

Lemma no_nl_existsb a : existsb is_nl a = false <-> ~ In NL a.
Proof.
  split.
  - intros H Hin. assert (E : existsb is_nl a = true).
    { apply existsb_exists. exists NL. split; [exact Hin | reflexivity]. }
    congruence.
  - intros H. destruct (existsb is_nl a) eqn:E; [|reflexivity].
    apply existsb_exists in E. destruct E as (x & Hx & Hnl).
    unfold is_nl in Hnl. apply N.eqb_eq in Hnl. subst x. contradiction.
Qed.

Lemma join_runs_hd bs :
  forallb (fun b => negb (existsb is_nl (fst b))) bs = true ->
  forallb (fun b => negb (Nat.eqb (List.length (fst b)) 0)) bs = true ->
  hd 0%N (join_runs bs) <> NL.
Proof.
  destruct bs as [|[a k] bs]; simpl; [discriminate|].
  intros H1 H2. apply andb_true_iff in H1. destruct H1 as [H1 _].
  apply andb_true_iff in H2. destruct H2 as [H2 _].
  apply negb_true_iff in H1. apply no_nl_existsb in H1.
  destruct a as [|c a]; [discriminate H2|]. simpl.
  intros ->. apply H1. left. reflexivity.
Qed.

(** The collapse, block by block. *)
Lemma collapse_join_runs bs :
  runs_ok bs = true ->
  collapse (join_runs bs)
  = join_runs (map (fun b => (fst b, Nat.min (snd b) 2)) bs).
Proof.
  unfold runs_ok. induction bs as [|[a k] bs IH]; intros H; [reflexivity|].
  apply andb_true_iff in H. destruct H as [H1 H2].
  simpl in H1. apply andb_true_iff in H1. destruct H1 as [Ha H1].
  apply negb_true_iff in Ha. apply no_nl_existsb in Ha.
  simpl in H2. simpl.
  rewrite collapse_split; [| exact Ha | apply join_runs_hd; assumption].
  rewrite IH; [reflexivity|]. rewrite H1. simpl.
  destruct bs as [|b bs]; [reflexivity|]. simpl in *.
  apply andb_true_iff in H2. tauto.
Qed.

(** Every text is cut into such blocks. *)
Lemma runs_exist s :
  exists bs, runs_ok bs = true /\ s = join_runs bs
    /\ (s <> [] -> hd 0%N s <> NL ->
        forallb (fun b => negb (Nat.eqb (List.length (fst b)) 0)) bs = true).
Proof.
  induction s as [s IH] using text_length_ind.
  destruct s as [|c s'].
  - exists []. split; [reflexivity|]. split; [reflexivity|]. congruence.
  - destruct (nl_split (c :: s')) as (a & k & b & E & Ha & Hb & L);
      [discriminate|].
    assert (Ha' : negb (existsb is_nl a) = true)
      by (apply negb_true_iff, no_nl_existsb; exact Ha).
    assert (Hfirst : hd 0%N (c :: s') <> NL ->
              negb (Nat.eqb (List.length a) 0) = true).
    { intros Hh. destruct a as [|x a]; [|reflexivity]. exfalso.
      destruct k as [|k].
      - simpl in E. rewrite E in L. lia.
      - rewrite E in Hh. simpl in Hh. congruence. }
    destruct b as [|y b'].
    + exists [(a, k)]. unfold runs_ok. simpl. rewrite Ha'. simpl.
      split; [reflexivity|]. split; [exact E|].
      intros _ Hh. rewrite (Hfirst Hh). reflexivity.
    + destruct (IH (y :: b') L) as (bs & Hok & Ej & Hne).
      specialize (Hne ltac:(discriminate) Hb).
      exists ((a, k) :: bs). unfold runs_ok in *.
      apply andb_true_iff in Hok. destruct Hok as [H1 _].
      split; [|split].
      * simpl. rewrite Ha', H1, Hne. reflexivity.
      * simpl. rewrite <- Ej. exact E.
      * intros _ Hh. simpl. rewrite (Hfirst Hh), Hne. reflexivity.
Qed.

(** C7: cut the text left by the four rules at its maximal runs of
    newlines, into pieces without a newline, each followed by a run.  The
    text computed for the file is made of the same pieces in the same
    order, each followed by a run of as many newlines as before, but two
    when there were three or more: every run of three or more newlines
    becomes exactly two, every run of one or two stays, and nothing else
    changes.  Every text can be cut in this way. *)
Theorem newline_runs_collapsed (t : text) :
  (exists bs, runs_ok bs = true /\ apply_rules patterns t = join_runs bs)
  /\ (forall bs, runs_ok bs = true ->
        apply_rules patterns t = join_runs bs ->
        transform t
        = join_runs (map (fun b => (fst b, Nat.min (snd b) 2)) bs)).
Proof.
  split.
  - destruct (runs_exist (apply_rules patterns t)) as (bs & Hok & E & _).
    exists bs. auto.
  - intros bs Hok E. unfold transform. rewrite E.
    apply collapse_join_runs. exact Hok.
Qed.

Lemma newline_runs_collapsed_witness :
  transform (str "ab" ++ repeat NL 5 ++ str "cd" ++ repeat NL 2
             ++ str "e" ++ repeat NL 3)
  = join_runs [(str "ab", 2); (str "cd", 2); (str "e", 2)].
Proof.
  destruct (newline_runs_collapsed
              (str "ab" ++ repeat NL 5 ++ str "cd" ++ repeat NL 2
               ++ str "e" ++ repeat NL 3)) as [_ H].
  apply (H [(str "ab", 5); (str "cd", 2); (str "e", 3)]).
  - reflexivity.
  - vm_compute. reflexivity.
Defined.
